(** * aerolake: phase state store, read-only sensor reader, phase router

    A shallow embedding of

    - [pipeline-manager/pipeline_controller.py]   (module [Controller]),
    - [databricks-uploader/sensor_db_reader.py]    (module [Reader]),
    - [databricks-uploader/pipeline_metadata.py]   (module [Metadata]),
    - [databricks-uploader/tests/test_phase_logic_simple.py], class
      [MockUploader]                               (module [Router]),

    followed by the properties proved about them.

    Conventions.  Python [str] is Rocq's [string]; the case and whitespace
    functions are the ASCII ones.  A Python [float] is an IEEE-754 binary64
    value, [spec_float] with precision 53 and maximal exponent 1024.  A
    Python [dict] with string keys is a [gmap string _].  An exception is a
    value of [exn]; code that may raise returns an [outcome]. *)

From Stdlib Require Import ZArith String Ascii List.
From Stdlib Require Import Floats.SpecFloat.
From stdpp Require Import gmap strings list fin_maps sorting pretty.

#[local] Set Warnings "-register-all".
#[local] Open Scope Z_scope.

(** ** Python values and builtins *)

Module Py.

(** Exceptions, by class, with their message ([str(e)]). *)
Inductive exn :=
| OperationalError (msg : string)     (* sqlite3.OperationalError *)
| ValueError (msg : string)
| TypeError (msg : string)
| OverflowError (msg : string)
| FileNotFoundError (msg : string)
| RuntimeError (msg : string)
| OtherException (cls msg : string).

Inductive outcome (A : Type) :=
| Return (a : A)
| Raise (e : exn).
Arguments Return {A} a.
Arguments Raise {A} e.

Definition bind {A B} (m : outcome A) (k : A -> outcome B) : outcome B :=
  match m with
  | Return a => k a
  | Raise e => Raise e
  end.

Definition str_of_exn (e : exn) : string :=
  match e with
  | OperationalError m | ValueError m | TypeError m | OverflowError m
  | FileNotFoundError m | RuntimeError m | OtherException _ m => m
  end.

(** *** str methods (ASCII) *)

Definition is_upper (c : ascii) : bool :=
  (65 <=? nat_of_ascii c)%nat && (nat_of_ascii c <=? 90)%nat.
Definition is_lower (c : ascii) : bool :=
  (97 <=? nat_of_ascii c)%nat && (nat_of_ascii c <=? 122)%nat.

Definition lower_char (c : ascii) : ascii :=
  if is_upper c then ascii_of_nat (nat_of_ascii c + 32) else c.
Definition upper_char (c : ascii) : ascii :=
  if is_lower c then ascii_of_nat (nat_of_ascii c - 32) else c.

Fixpoint map_chars (f : ascii -> ascii) (s : string) : string :=
  match s with
  | EmptyString => EmptyString
  | String c s' => String (f c) (map_chars f s')
  end.

(** [s.lower()] and [s.upper()] *)
Definition lower : string -> string := map_chars lower_char.
Definition upper : string -> string := map_chars upper_char.

(** [c.isspace()] on ASCII: TAB, LF, VT, FF, CR, FS, GS, RS, US, SPACE. *)
Definition is_space (c : ascii) : bool :=
  let n := nat_of_ascii c in
  ((9 <=? n)%nat && (n <=? 13)%nat)
  || ((28 <=? n)%nat && (n <=? 32)%nat).

Fixpoint lstrip (s : string) : string :=
  match s with
  | EmptyString => EmptyString
  | String c s' => if is_space c then lstrip s' else s
  end.

Fixpoint rstrip (s : string) : string :=
  match s with
  | EmptyString => EmptyString
  | String c s' =>
      match rstrip s' with
      | EmptyString => if is_space c then EmptyString else String c EmptyString
      | r => String c r
      end
  end.

(** [s.strip()] *)
Definition strip (s : string) : string := rstrip (lstrip s).

(** The one-character string of a double quote. *)
Definition dquote : string := String (ascii_of_nat 34) EmptyString.

(** [s.startswith(p)] *)
Definition startswith (s p : string) : bool := String.prefix p s.

(** [sub in s] *)
Fixpoint contains (sub s : string) : bool :=
  String.prefix sub s
  || match s with
     | EmptyString => false
     | String _ s' => contains sub s'
     end.

(** *** float *)

Definition prec : Z := 53.
Definition emax : Z := 1024.

(** The float nearest to an integer ([float(n)] where it does not
    overflow; an integer literal compared with a float). *)
Definition float_of_Z (z : Z) : spec_float :=
  binary_normalize prec emax z 0 false.

(** The literal [0.1]: [0x1.999999999999ap-4]. *)
Definition float_0_1 : spec_float := S754_finite false 7205759403792794 (-56).

(** The literal [1013.25] = 4053 / 4. *)
Definition float_1013_25 : spec_float := binary_normalize prec emax 4053 (-2) false.

Definition fmul : spec_float -> spec_float -> spec_float := SFmul prec emax.

(** *** Values *)

(** The Python values that occur in records and configurations. *)
Inductive value :=
| VNone
| VBool (b : bool)
| VInt (z : Z)
| VFloat (f : spec_float)
| VStr (s : string)
| VList (l : list value)
| VDict (d : gmap string value).

(** Truth value of an optional str or int argument ([if where_clause:],
    [if limit:]): None, the empty string and 0 are false. *)
Definition truthy_str (o : option string) : bool :=
  match o with
  | Some s => negb (String.eqb s EmptyString)
  | None => false
  end.

Definition truthy_int (o : option Z) : bool :=
  match o with
  | Some z => negb (z =? 0)
  | None => false
  end.

End Py.

Import Py.

(** ** pipeline_controller.py *)

Module Controller.

(** class PipelineType(Enum) *)
Inductive PipelineType :=
| RAW | INGESTION | VALIDATED | SCHEMATIZED | ENRICHED
| FILTERED | AGGREGATED | ANOMALY | ANOMALIES.

(** [pipeline_type.value] *)
Definition PipelineType_value (p : PipelineType) : string :=
  match p with
  | RAW => "raw" | INGESTION => "ingestion" | VALIDATED => "validated"
  | SCHEMATIZED => "schematized" | ENRICHED => "enriched"
  | FILTERED => "filtered" | AGGREGATED => "aggregated"
  | ANOMALY => "anomaly" | ANOMALIES => "anomalies"
  end.

(** A row of [pipeline_config].  Nullable columns are options; [is_active]
    is an INTEGER column, so any integer (or NULL) can be stored in it. *)
Record config_row := {
  id : Z;
  pipeline_type : string;
  created_at : string;
  created_by : option string;
  reason : option string;
  is_active : option Z
}.

(** The configuration database file: the committed rows of [pipeline_config]
    in rowid order, and whether the table already has the [is_active] column
    (files written before that column existed lack it). *)
Record config_db := {
  has_is_active : bool;
  rows : list config_row
}.

(** The predicate [is_active = 1] of the WHERE clauses. *)
Definition active (r : config_row) : bool :=
  match is_active r with
  | Some 1 => true
  | _ => false
  end.

(** SELECT COUNT( * ) FROM pipeline_config WHERE is_active = 1 *)
Definition count_active (rs : list config_row) : nat :=
  length (filter (fun r => active r = true) rs).

(** UPDATE pipeline_config SET is_active = 0 WHERE is_active = 1 *)
Definition deactivate (r : config_row) : config_row :=
  if active r
  then {| id := id r; pipeline_type := pipeline_type r;
          created_at := created_at r; created_by := created_by r;
          reason := reason r; is_active := Some 0 |}
  else r.

Definition update_deactivate (rs : list config_row) : list config_row :=
  map deactivate rs.

(** The rowid SQLite gives to a row inserted without an id into an
    INTEGER PRIMARY KEY table: one more than the largest in use. *)
Definition next_id (rs : list config_row) : Z :=
  1 + fold_right Z.max 0 (map id rs).

(** INSERT INTO pipeline_config (pipeline_type, created_at, created_by,
    reason, is_active) VALUES (?, datetime('now'), ?, ?, 1) *)
Definition insert_config (now : string) (ptype : string)
    (by_ reason_ : option string) (rs : list config_row) : list config_row :=
  rs ++ [ {| id := next_id rs; pipeline_type := ptype; created_at := now;
             created_by := by_; reason := reason_; is_active := Some 1 |} ].

(** SELECT pipeline_type, created_at, created_by, reason
    FROM pipeline_config WHERE is_active = 1 ORDER BY id DESC LIMIT 1 *)
Definition latest (r : config_row) (acc : option config_row) : option config_row :=
  if active r then
    match acc with
    | Some r' => if id r' <? id r then Some r else acc
    | None => Some r
    end
  else acc.

Definition select_current (rs : list config_row) : option config_row :=
  fold_right latest None rs.

(** The statements the controller sends to SQLite. *)
Inductive stmt :=
| BeginImmediate
| UpdateDeactivate
| InsertConfig (ptype : string) (by_ reason_ : option string)
| Commit
| SelectCountActive
| SelectCurrent.

Definition is_select (s : stmt) : bool :=
  match s with
  | SelectCountActive | SelectCurrent => true
  | _ => false
  end.

(** What a statement does to the rows seen by the connection. *)
Definition exec (now : string) (s : stmt) (rs : list config_row) : list config_row :=
  match s with
  | UpdateDeactivate => update_deactivate rs
  | InsertConfig p b r => insert_config now p b r rs
  | BeginImmediate | Commit | SelectCountActive | SelectCurrent => rs
  end.

(** What the process does that can be observed from outside. *)
Inductive event :=
| Connect
| Exec (s : stmt)
| Rollback
| Sleep (seconds : spec_float).

(** The environment of one attempt: either nothing goes wrong, or the
    [n]-th call into SQLite of that attempt (0 is [sqlite3.connect]) raises. *)
Inductive fault :=
| NoFault
| FaultAt (n : nat) (e : exn).

Definition raises_at (f : fault) (n : nat) : option exn :=
  match f with
  | FaultAt m e => if (m =? n)%nat then Some e else None
  | NoFault => None
  end.

(** Running the statements of one [with sqlite3.connect(...) as conn] block
    in order.  [snapshot] is the committed content, [working] what the open
    transaction sees, [n] the index of the next call.  An exception rolls
    the transaction back, so that the committed content is what it was;
    [Commit] makes the working content the committed one. *)
Fixpoint run_stmts (now : string) (f : fault) (n : nat) (ss : list stmt)
    (snapshot working : list config_row) (log : list event)
    : outcome (list config_row) * list config_row * list event :=
  match ss with
  | [] => (Return working, snapshot, log)
  | s :: ss' =>
      match raises_at f n with
      | Some e => (Raise e, snapshot, log ++ [Rollback])
      | None =>
          let working' := exec now s working in
          let snapshot' := match s with Commit => working' | _ => snapshot end in
          run_stmts now f (S n) ss' snapshot' working' (log ++ [Exec s])
      end
  end.

Definition with_connection (now : string) (f : fault) (ss : list stmt)
    (rs : list config_row) (log : list event)
    : outcome (list config_row) * list config_row * list event :=
  match raises_at f 0 with
  | Some e => (Raise e, rs, log ++ [Connect])
  | None => run_stmts now f 1 ss rs rs (log ++ [Connect])
  end.

Definition max_retries : nat := 5.
Definition retry_delay : spec_float := float_0_1.

(** retry_delay * (2**attempt) *)
Definition backoff (attempt : nat) : spec_float :=
  fmul retry_delay (float_of_Z (2 ^ Z.of_nat attempt)).

(** "locked" in str(e) and attempt < max_retries - 1 *)
Definition retryable (e : exn) (attempt : nat) : bool :=
  match e with
  | OperationalError msg =>
      contains "locked" msg && (attempt <? max_retries - 1)%nat
  | _ => false
  end.

(** The result of a call: what it returned or raised, the committed rows
    afterwards, and the events in order. *)
Record run (A : Type) := {
  result : outcome A;
  final : list config_row;
  trace : list event
}.
Arguments result {A} _.
Arguments final {A} _.
Arguments trace {A} _.

(** created_by or "unknown" *)
Definition or_unknown (created_by_ : option string) : string :=
  match created_by_ with
  | Some b => if String.eqb b EmptyString then "unknown" else b
  | None => "unknown"
  end.

(** The statements of the write transaction of [set_pipeline]. *)
Definition set_stmts (ptype : PipelineType) (by_ reason_ : option string)
    : list stmt :=
  [BeginImmediate; UpdateDeactivate;
   InsertConfig (PipelineType_value ptype) (Some (or_unknown by_)) reason_;
   Commit].

(** [set_pipeline]: the [for attempt in range(max_retries)] loop, over the
    attempts still to make.  [env attempt] is what the environment does to
    that attempt, [clock attempt] what datetime('now') is during it. *)
Fixpoint set_pipeline_loop (clock : nat -> string) (env : nat -> fault)
    (ptype : PipelineType) (by_ reason_ : option string)
    (attempts : list nat) (rs : list config_row) (log : list event)
    : run bool :=
  match attempts with
  | [] => {| result := Return false; final := rs; trace := log |}
  | attempt :: rest =>
      let '(r, rs', log') :=
        with_connection (clock attempt) (env attempt)
          (set_stmts ptype by_ reason_) rs log in
      match r with
      | Return _ => {| result := Return true; final := rs'; trace := log' |}
      | Raise e =>
          if retryable e attempt
          then set_pipeline_loop clock env ptype by_ reason_ rest rs'
                 (log' ++ [Sleep (backoff attempt)])
          else {| result := Raise e; final := rs'; trace := log' |}
      end
  end.

Definition set_pipeline (clock : nat -> string) (env : nat -> fault)
    (ptype : PipelineType) (by_ reason_ : option string)
    (rs : list config_row) : run bool :=
  set_pipeline_loop clock env ptype by_ reason_ (seq 0 max_retries) rs [].

(** The committed rows after the write transaction of [set_pipeline]. *)
Definition switched (now : string) (ptype : PipelineType)
    (by_ reason_ : option string) (rs : list config_row) : list config_row :=
  fold_left (fun acc s => exec now s acc) (set_stmts ptype by_ reason_) rs.

(** A call of [set_pipeline] with its environment, and a sequence of calls
    made one after the other on the same file. *)
Record call := {
  call_clock : nat -> string;
  call_env : nat -> fault;
  call_type : PipelineType;
  call_by : option string;
  call_reason : option string
}.

Definition do_call (c : call) (rs : list config_row) : run bool :=
  set_pipeline (call_clock c) (call_env c) (call_type c) (call_by c)
    (call_reason c) rs.

Fixpoint run_calls (cs : list call) (rs : list config_row) : list (run bool) :=
  match cs with
  | [] => []
  | c :: cs' => let r := do_call c rs in r :: run_calls cs' (final r)
  end.

(** The delays slept and the number of connections opened in a trace. *)
Definition sleeps (t : list event) : list spec_float :=
  omap (fun ev => match ev with Sleep d => Some d | _ => None end) t.

Definition is_connect (ev : event) : bool :=
  match ev with Connect => true | _ => false end.

Definition connects (t : list event) : nat :=
  length (List.filter is_connect t).

Definition statements (t : list event) : list stmt :=
  omap (fun ev => match ev with Exec s => Some s | _ => None end) t.

(** Lock contention, as the retry loops recognise it. *)
Definition lock_contention (e : exn) : bool :=
  match e with
  | OperationalError msg => contains "locked" msg
  | _ => false
  end.

(** An attempt of [set_pipeline] that meets lock contention: one of its
    five calls into SQLite raises a lock error. *)
Definition contended (f : fault) : Prop :=
  exists n e, (n < 5)%nat /\ f = FaultAt n e /\ lock_contention e = true.

(** An attempt of [set_pipeline] in which nothing raises. *)
Definition undisturbed (f : fault) : Prop :=
  forall n, (n < 5)%nat -> raises_at f n = None.

(** The dict [get_current_pipeline] returns. *)
Record current_config := {
  cur_pipeline_type : string;
  cur_created_at : string;
  cur_created_by : option string;
  cur_reason : option string
}.

Definition dict_of_row (r : config_row) : current_config :=
  {| cur_pipeline_type := pipeline_type r; cur_created_at := created_at r;
     cur_created_by := created_by r; cur_reason := reason r |}.

Definition default_config (now_iso : string) : current_config :=
  {| cur_pipeline_type := PipelineType_value RAW; cur_created_at := now_iso;
     cur_created_by := Some "system"; cur_reason := Some "Default configuration" |}.

(** [get_current_pipeline]; [now_iso] is [datetime.now().isoformat()]. *)
Fixpoint get_current_pipeline_loop (now_iso : string) (env : nat -> fault)
    (attempts : list nat) (rs : list config_row) (log : list event)
    : run current_config :=
  match attempts with
  | [] => {| result := Raise (RuntimeError
               "Failed to read pipeline configuration after multiple attempts");
             final := rs; trace := log |}
  | attempt :: rest =>
      let '(r, rs', log') :=
        with_connection now_iso (env attempt) [SelectCurrent] rs log in
      match r with
      | Return seen =>
          {| result := Return (match select_current seen with
                               | Some row => dict_of_row row
                               | None => default_config now_iso
                               end);
             final := rs'; trace := log' |}
      | Raise e =>
          if retryable e attempt
          then get_current_pipeline_loop now_iso env rest rs'
                 (log' ++ [Sleep (backoff attempt)])
          else {| result := Raise e; final := rs'; trace := log' |}
      end
  end.

Definition get_current_pipeline (now_iso : string) (env : nat -> fault)
    (rs : list config_row) : run current_config :=
  get_current_pipeline_loop now_iso env (seq 0 max_retries) rs [].

(** [_init_database], on the rows: the [is_active] column is added with
    DEFAULT 1 when the table lacks it, and a default row is inserted when
    no row is active.  (The other two migrations add nullable columns.) *)
Definition add_is_active (r : config_row) : config_row :=
  {| id := id r; pipeline_type := pipeline_type r; created_at := created_at r;
     created_by := created_by r; reason := reason r; is_active := Some 1 |}.

Definition _init_database (now : string) (db : config_db) : config_db :=
  let rs := if has_is_active db then rows db else map add_is_active (rows db) in
  let rs' := if (count_active rs =? 0)%nat
             then insert_config now (PipelineType_value RAW) (Some "system")
                    (Some "Initial configuration") rs
             else rs in
  {| has_is_active := true; rows := rs' |}.

(** A database file that does not exist yet: CREATE TABLE IF NOT EXISTS
    makes the table, with every column and no row. *)
Definition fresh_db : config_db := {| has_is_active := true; rows := [] |}.

(** [PipelineController.__init__]: the path check, then [_init_database] on
    the file at that path.  [files] gives the content of the file at a path.
    The result carries the list of paths opened. *)
Definition init (now : string) (files : string -> config_db)
    (config_db_path : option string)
    : outcome (string * config_db) * list string :=
  let path := match config_db_path with
              | None => "pipeline_config.db"
              | Some p => p
              end in
  if contains "sensor_data" (lower path)
  then (Raise (ValueError
          ("Pipeline configuration should use a separate database, " +:+
           "not the sensor database. Use 'pipeline_config.db' instead.")), [])
  else (Return (path, _init_database now (files path)), [path]).

(** Environments and calls for the examples. *)
Definition clock0 : nat -> string := fun _ => "2024-01-15 10:30:00".
Definition env_clear : nat -> fault := fun _ => NoFault.
Definition env_locked : nat -> fault :=
  fun _ => FaultAt 1 (OperationalError "database is locked").
Definition env_locked_twice : nat -> fault :=
  fun i => if (i <? 2)%nat then FaultAt 1 (OperationalError "database is locked")
           else NoFault.
Definition env_disk_error : nat -> fault :=
  fun i => if (i <? 1)%nat then FaultAt 1 (OperationalError "database is locked")
           else FaultAt 3 (OperationalError "disk I/O error").

Definition call_validated : call :=
  {| call_clock := clock0; call_env := env_locked_twice; call_type := VALIDATED;
     call_by := Some "user1"; call_reason := Some "enable validation" |}.
Definition call_refused : call :=
  {| call_clock := clock0; call_env := env_locked; call_type := SCHEMATIZED;
     call_by := None; call_reason := None |}.
Definition call_raw : call :=
  {| call_clock := clock0; call_env := env_clear; call_type := RAW;
     call_by := Some "user2"; call_reason := None |}.

(** A file written before the [is_active] column existed, holding the two
    switches made so far. *)
Definition legacy_db : config_db :=
  {| has_is_active := false;
     rows := [ {| id := 1; pipeline_type := "raw"; created_at := "2024-01-10 08:00:00";
                  created_by := None; reason := None; is_active := None |};
               {| id := 2; pipeline_type := "validated";
                  created_at := "2024-01-12 09:00:00";
                  created_by := None; reason := None; is_active := None |} ] |}.

(** *** The rest of the controller *)

(** An attempt of [get_current_pipeline] makes two calls into SQLite, the
    connection and the SELECT.  It is contended when one of them raises a
    lock error. *)
Definition read_contended (f : fault) : Prop :=
  exists n e, (n < 2)%nat /\ f = FaultAt n e /\ lock_contention e = true.

(** The columns of a row that [set_pipeline] never writes again. *)
Definition written_once (r : config_row)
    : Z * string * string * option string * option string :=
  (id r, pipeline_type r, created_at r, created_by r, reason r).





End Controller.

(** ** sensor_db_reader.py *)

Module Reader.

(** A row of a sensor table, as [dict(row)] gives it. *)
Abbreviation record := (gmap string value).

(** @dataclass SensorReaderConfig *)
Record SensorReaderConfig := {
  max_retries : Z;
  initial_retry_delay : spec_float;
  timeout : spec_float;
  verbose : bool
}.

Definition default_config : SensorReaderConfig :=
  {| max_retries := 5; initial_retry_delay := float_0_1;
     timeout := float_of_Z 30; verbose := false |}.

(** What the constructor needs of the file system: [Path(p).resolve()] and
    [Path.exists]. *)
Record filesystem := {
  resolve : string -> string;
  exists_ : string -> bool
}.

Record SensorDatabaseReader := {
  db_path : string;
  config : SensorReaderConfig;
  connection_string : string
}.

(** [SensorDatabaseReader.__init__] *)
Definition init (fs : filesystem) (db_path_ : string)
    (config_ : option SensorReaderConfig) : outcome SensorDatabaseReader :=
  let path := resolve fs db_path_ in
  let cfg := match config_ with Some c => c | None => default_config end in
  if negb (exists_ fs path)
  then Raise (FileNotFoundError ("Sensor database not found: " +:+ path))
  else Return {| db_path := path; config := cfg;
                 connection_string := "file:" +:+ path +:+ "?mode=ro" |}.

(** The SELECT statement [read_sensor_data] builds, clause by clause. *)
Record select_query := {
  q_table : string;
  q_where : option string;
  q_order_by : string;
  q_limit : option Z;
  q_offset : option Z
}.

(** The text of the statement, as the f-strings concatenate it. *)
Definition render (q : select_query) : string :=
  "SELECT * FROM " +:+ q_table q
  +:+ match q_where q with Some w => " WHERE " +:+ w | None => EmptyString end
  +:+ " ORDER BY " +:+ q_order_by q
  +:+ match q_limit q with Some n => " LIMIT " +:+ pretty n | None => EmptyString end
  +:+ match q_offset q with Some n => " OFFSET " +:+ pretty n | None => EmptyString end.

(** The query-building part of [read_sensor_data]. *)
Definition build_query (table_name : string) (where_clause order_by : option string)
    (limit offset : option Z) : select_query :=
  {| q_table := table_name;
     q_where := if truthy_str where_clause then where_clause else None;
     q_order_by := match order_by with
                   | Some o => if truthy_str order_by then o else "timestamp DESC"
                   | None => "timestamp DESC"
                   end;
     q_limit := if truthy_int limit then limit else None;
     q_offset := if truthy_int offset then offset else None |}.

(** The sensor database during the reads: the rows that
    SELECT * FROM table [WHERE w] ORDER BY o gives (or the error it raises,
    such as a missing table).  The reader opens it read-only, so this is
    the same at every read. *)
Record sensor_db := {
  select_ordered : string -> option string -> string -> outcome (list record)
}.

(** SQLite's LIMIT and OFFSET: a negative LIMIT is no limit, a negative
    OFFSET is 0, and OFFSET without LIMIT is a syntax error. *)
Definition sql_limit (n : Z) (rs : list record) : list record :=
  if n <? 0 then rs else take (Z.to_nat n) rs.

Definition sql_offset (o : option Z) (rs : list record) : list record :=
  match o with
  | Some k => drop (Z.to_nat k) rs
  | None => rs
  end.

Definition sqlite_select (db : sensor_db) (q : select_query)
    : outcome (list record) :=
  match q_limit q with
  | None =>
      match q_offset q with
      | Some _ => Raise (OperationalError ("near " +:+ dquote +:+ "OFFSET" +:+ dquote +:+ ": syntax error"))
      | None => select_ordered db (q_table q) (q_where q) (q_order_by q)
      end
  | Some n =>
      bind (select_ordered db (q_table q) (q_where q) (q_order_by q))
        (fun rs => Return (sql_limit n (sql_offset (q_offset q) rs)))
  end.

Inductive event :=
| Connect (uri : string)
| Execute (sql : string)
| Close
| Sleep (seconds : spec_float).

Record run (A : Type) := {
  result : outcome A;
  trace : list event
}.
Arguments result {A} _.
Arguments trace {A} _.

(** "locked" in str(e).lower() or "busy" in str(e).lower() *)
Definition busy (msg : string) : bool :=
  contains "locked" (lower msg) || contains "busy" (lower msg).

(** What the [except] clauses of [get_connection] do with an exception
    raised at attempt [attempt]: sleep and go round again, or re-raise. *)
Definition retry_delay (cfg : SensorReaderConfig) (e : exn) (attempt : nat)
    : option spec_float :=
  match e with
  | OperationalError msg =>
      if busy msg && (Z.of_nat attempt <? max_retries cfg - 1)
      then Some (fmul (initial_retry_delay cfg) (float_of_Z (2 ^ Z.of_nat attempt)))
      else None
  | _ => None
  end.

(** [with self.get_connection() as conn: body].  [env attempt] is the
    exception [sqlite3.connect] raises at that attempt, if any.  [body] is
    what the block does with the connection: the statements it executes and
    its result.  An exception of the block is thrown into the generator at
    its [yield], where the same [except] clauses handle it; when they go
    round the loop again and a connection is made, the generator yields a
    second time, which contextlib answers with a RuntimeError. *)
Fixpoint get_connection_loop {A} (self : SensorDatabaseReader)
    (env : nat -> option exn) (body : list string * outcome A)
    (resumed : bool) (attempts : list nat) (log : list event) : run A :=
  match attempts with
  | [] =>
      {| result := Raise (OperationalError
           ("Failed to connect to sensor database after "
            +:+ pretty (max_retries (config self)) +:+ " attempts: None"));
         trace := log |}
  | attempt :: rest =>
      let log := log ++ [Connect (connection_string self)] in
      match env attempt with
      | Some e =>
          match retry_delay (config self) e attempt with
          | Some d => get_connection_loop self env body resumed rest (log ++ [Sleep d])
          | None => {| result := Raise e; trace := log |}
          end
      | None =>
          if resumed
          then {| result := Raise (RuntimeError "generator didn't stop after throw()");
                  trace := log ++ [Close] |}
          else
            let log := log ++ map Execute body.1 in
            match body.2 with
            | Return a => {| result := Return a; trace := log ++ [Close] |}
            | Raise e =>
                match retry_delay (config self) e attempt with
                | Some d =>
                    get_connection_loop self env body true rest
                      (log ++ [Close; Sleep d])
                | None => {| result := Raise e; trace := log ++ [Close] |}
                end
            end
      end
  end.

Definition with_connection {A} (self : SensorDatabaseReader)
    (env : nat -> option exn) (body : list string * outcome A) : run A :=
  get_connection_loop self env body false
    (seq 0 (Z.to_nat (max_retries (config self)))) [].

(** [read_sensor_data] *)
Definition read_sensor_data (self : SensorDatabaseReader) (db : sensor_db)
    (env : nat -> option exn)
    (table_name : string) (where_clause order_by : option string)
    (limit offset : option Z) : run (list record) :=
  let query := build_query table_name where_clause order_by limit offset in
  with_connection self env ([render query], sqlite_select db query).

(** [read_with_query].  [execute] is what SQLite answers to the statement
    with its parameters. *)
Definition read_with_query (self : SensorDatabaseReader)
    (execute : string -> list value -> outcome (list record))
    (env : nat -> option exn)
    (query : string) (params : option (list value)) : run (list record) :=
  let query_upper := upper (strip query) in
  if negb (startswith query_upper "SELECT")
  then {| result := Raise (ValueError
            "Only SELECT queries are allowed on sensor database");
          trace := [] |}
  else with_connection self env
         ([query], execute query (match params with Some ps => ps | None => [] end)).

(** How a run of the generator [stream_sensor_data] ends: exhausted, by an
    exception of a read, or not yet ([Running]: the loop goes on beyond the
    iterations looked at). *)
Inductive stream_end :=
| StopIteration
| Raised (e : exn)
| Running.

Record stream := {
  batches : list (list record);
  ending : stream_end;
  reads : list event
}.

(** [stream_sensor_data]: the [while True] loop, at most [fuel] iterations
    of it.  [envs i] is the environment of the [i]-th read. *)
Fixpoint stream_loop (fuel : nat) (self : SensorDatabaseReader) (db : sensor_db)
    (envs : nat -> nat -> option exn)
    (table_name : string) (batch_size : Z) (where_clause order_by : option string)
    (i : nat) (offset : Z) : stream :=
  match fuel with
  | O => {| batches := []; ending := Running; reads := [] |}
  | S fuel' =>
      let r := read_sensor_data self db (envs i) table_name where_clause order_by
                 (Some batch_size) (Some offset) in
      match result r with
      | Raise e => {| batches := []; ending := Raised e; reads := trace r |}
      | Return batch =>
          match batch with
          | [] => {| batches := []; ending := StopIteration; reads := trace r |}
          | _ :: _ =>
              if Z.of_nat (length batch) <? batch_size
              then {| batches := [batch]; ending := StopIteration; reads := trace r |}
              else
                let s := stream_loop fuel' self db envs table_name batch_size
                           where_clause order_by (S i) (offset + batch_size) in
                {| batches := batch :: batches s; ending := ending s;
                   reads := trace r ++ reads s |}
          end
      end
  end.

Definition stream_sensor_data (fuel : nat) (self : SensorDatabaseReader)
    (db : sensor_db) (envs : nat -> nat -> option exn)
    (table_name : string) (batch_size : Z) (where_clause order_by : option string)
    : stream :=
  stream_loop fuel self db envs table_name batch_size where_clause order_by 0 0.

(** The test on the query in the words of the specification: the leading
    keyword, after stripping whitespace and without regard to case, is
    SELECT.  In Python, [query.lstrip()[:6].upper() == "SELECT"]. *)
Definition leading_keyword_is_select (query : string) : bool :=
  String.eqb (upper (substring 0 6 (lstrip query))) "SELECT".

(** The statements executed in a trace, in order. *)
Definition executed (t : list event) : list string :=
  omap (fun ev => match ev with Execute q => Some q | _ => None end) t.

(** A reader, a table of five rows and environments for the examples. *)
Definition reader0 : SensorDatabaseReader :=
  {| db_path := "/data/sensor_data.db"; config := default_config;
     connection_string := "file:/data/sensor_data.db?mode=ro" |}.

Definition five_rows : list record :=
  map (fun i : Z => <["id" := VInt i]> (∅ : record)) [5; 4; 3; 2; 1].

Definition db_five : sensor_db := {| select_ordered := fun _ _ _ => Return five_rows |}.

Definition env_ok : nat -> option exn := fun _ => None.

(** A file system in which every path exists and resolves to itself. *)
Definition fs_all : filesystem := {| resolve := fun p => p; exists_ := fun _ => true |}.

(** An environment in which the first connection attempt succeeds. *)
Definition connects_at_once (env : nat -> option exn) : Prop := env 0%nat = None.

(** *** Reading traces *)

(** The delays slept, the connection attempts and the closes in a trace. *)
Definition sleeps (t : list event) : list spec_float :=
  omap (fun ev => match ev with Sleep d => Some d | _ => None end) t.

Definition connects (t : list event) : nat :=
  length (omap (fun ev => match ev with Connect _ => Some tt | _ => None end) t).

(** initial_retry_delay * (2**attempt) *)
Definition backoff (cfg : SensorReaderConfig) (attempt : nat) : spec_float :=
  fmul (initial_retry_delay cfg) (float_of_Z (2 ^ Z.of_nat attempt)).

(** Where a trace stands: no connection in hand ([Idle]), a connection
    attempt just made ([Pending]), or a connection on which a statement has
    been executed ([Open]).  [step] says which events may follow: a statement
    needs a connection, and a connection that has executed a statement must
    be closed before anything else happens. *)
Inductive conn_state := Idle | Pending | Open.

Definition step (s : conn_state) (ev : event) : option conn_state :=
  match s, ev with
  | Idle, Connect _ => Some Pending
  | Idle, Sleep _ => Some Idle
  | Pending, Execute _ => Some Open
  | Pending, Close => Some Idle
  | Pending, Sleep _ => Some Idle
  | Open, Execute _ => Some Open
  | Open, Close => Some Idle
  | _, _ => None
  end.

Fixpoint run_trace (s : conn_state) (t : list event) : option conn_state :=
  match t with
  | [] => Some s
  | ev :: t' =>
      match step s ev with
      | Some s' => run_trace s' t'
      | None => None
      end
  end.

(** A trace is well formed when it can be stepped through from [Idle] and
    does not end with a connection that has executed a statement. *)
Definition released (t : list event) : bool :=
  match run_trace Idle t with
  | Some Idle | Some Pending => true
  | _ => false
  end.

(** *** The function read_sensor_data of the module *)

(** The convenience function [read_sensor_data(db_path, table_name, limit,
    where_clause)]: a reader with the default configuration, then its
    [read_sensor_data].  [db_of] is the database at a resolved path. *)
Definition read_sensor_data_convenience (fs : filesystem)
    (db_of : string -> sensor_db) (env : nat -> option exn)
    (db_path_ : string) (table_name : string) (limit : option Z)
    (where_clause : option string) : run (list record) :=
  match init fs db_path_ None with
  | Raise e => {| result := Raise e; trace := [] |}
  | Return reader =>
      read_sensor_data reader (db_of (db_path reader)) env table_name where_clause
        None limit None
  end.

(** [PipelineController.read_sensor_data] of pipeline_controller.py: a
    reader with [SensorReaderConfig(verbose=False)], then its
    [read_sensor_data] on [sensor_readings], newest first. *)
Definition controller_read_sensor_data (fs : filesystem)
    (db_of : string -> sensor_db) (env : nat -> option exn)
    (sensor_db_path : string) (limit : Z) : run (list record) :=
  let config_ := {| max_retries := 5; initial_retry_delay := float_0_1;
                    timeout := float_of_Z 30; verbose := false |} in
  match init fs sensor_db_path (Some config_) with
  | Raise e => {| result := Raise e; trace := [] |}
  | Return reader =>
      read_sensor_data reader (db_of (db_path reader)) env "sensor_readings" None
        (Some "timestamp DESC") (Some limit) None
  end.

(** An attempt is put off when [sqlite3.connect] raises a busy or locked
    error and an attempt is left. *)
Definition put_off (self : SensorDatabaseReader) (env : nat -> option exn)
    (i : nat) : Prop :=
  exists e d, env i = Some e /\ retry_delay (config self) e i = Some d.

(** The database is locked at the first two connection attempts. *)
Definition env_busy_twice : nat -> option exn :=
  fun i => if (i <? 2)%nat then Some (OperationalError "database is locked") else None.

End Reader.

(** ** pipeline_metadata.py *)

Module Metadata.

(** The order of [sorted] on str: lexicographic by character code. *)
Definition str_le (s1 s2 : string) : Prop := String.leb s1 s2 = true.

#[export] Instance str_le_dec (s1 s2 : string) : Decision (str_le s1 s2) :=
  decide (String.leb s1 s2 = true).

(** [sorted(config.keys())] *)
Definition sorted_keys (config : gmap string value) : list string :=
  merge_sort str_le (map fst (map_to_list config)).

(** [get_pipeline_version]: os.getenv("PIPELINE_VERSION", "0.9.0") *)
Definition get_pipeline_version (environ : gmap string string) : string :=
  default "0.9.0" (environ !! "PIPELINE_VERSION").

(** The JSON values [transformation_def] holds. *)
Inductive jvalue :=
| JStr (s : string)
| JStrList (l : list string).

Fixpoint join (sep : string) (l : list string) : string :=
  match l with
  | [] => EmptyString
  | [x] => x
  | x :: l' => x +:+ sep +:+ join sep l'
  end.

Section Hash.
(** [json_string s] is the JSON text of the str [s], quotes and escapes
    included; [sha256_hexdigest s] is
    [hashlib.sha256(s.encode()).hexdigest()]. *)
Variable json_string : string -> string.
Variable sha256_hexdigest : string -> string.

Definition dumps_value (v : jvalue) : string :=
  match v with
  | JStr s => json_string s
  | JStrList l => "[" +:+ join ", " (map json_string l) +:+ "]"
  end.

(** [json.dumps(obj, sort_keys=True)] for a dict of such values. *)
Definition json_dumps_sort_keys (obj : gmap string jvalue) : string :=
  "{" +:+ join ", "
            (map (fun k => json_string k +:+ ": "
                           +:+ dumps_value (default (JStr EmptyString) (obj !! k)))
                 (merge_sort str_le (map fst (map_to_list obj))))
      +:+ "}".

(** [generate_transformation_hash] *)
Definition generate_transformation_hash (environ : gmap string string)
    (pipeline_type : string) (config : gmap string value) : string :=
  let transformation_def : gmap string jvalue :=
    <["pipeline_type" := JStr pipeline_type]>
      (<["version" := JStr (get_pipeline_version environ)]>
         (<["config_keys" := JStrList (sorted_keys config)]> ∅)) in
  let hash_input := json_dumps_sort_keys transformation_def in
  sha256_hexdigest hash_input.

End Hash.

(** Two configurations with the same keys and different values. *)
Definition config_one : gmap string value :=
  <["api_key" := VStr "secret-one"]> (<["schema_url" := VStr "https://a"]> ∅).
Definition config_two : gmap string value :=
  <["schema_url" := VInt 7]> (<["api_key" := VStr "secret-two"]> ∅).

(** [get_git_sha].  [git] is what
    [subprocess.run(["git", "rev-parse", "HEAD"], ..., check=True)] gives:
    its standard output, or the exception it raises. *)
Definition get_git_sha (git : outcome string) : string :=
  match git with
  | Return stdout => strip stdout
  | Raise _ => "unknown"
  end.

(** [create_pipeline_metadata]; [now_utc] is
    [datetime.now(timezone.utc).isoformat()]. *)
Definition create_pipeline_metadata (json_string sha256_hexdigest : string -> string)
    (environ : gmap string string) (now_utc : string) (git : outcome string)
    (pipeline_type node_id : string) (config : gmap string value)
    : gmap string value :=
  <["pipeline_version" := VStr (get_pipeline_version environ)]>
  (<["pipeline_stage" := VStr pipeline_type]>
  (<["processing_timestamp" := VStr now_utc]>
  (<["git_sha" := VStr (get_git_sha git)]>
  (<["node_id" := VStr node_id]>
  (<["transformation_hash" :=
       VStr (generate_transformation_hash json_string sha256_hexdigest environ
               pipeline_type config)]> ∅))))).

End Metadata.

(** ** tests/test_phase_logic_simple.py: class MockUploader *)

Module Router.

Abbreviation record := (gmap string value).

(** The builtins of Python the router calls and that are not modelled
    further: [str(v)] as an f-string formats it, and [float(s)] on a str
    ([None] when it raises ValueError). *)
Record builtins := {
  str_of : value -> string;
  float_of_str : string -> option spec_float
}.

(** [record.get(key)] and [record.get(key, default)] *)
Definition get (r : record) (key : string) : value := default VNone (r !! key).
Definition get_or (r : record) (key : string) (d : value) : value := default d (r !! key).

(** [_mock_transform_to_turbine_schema] *)
Definition _mock_transform_to_turbine_schema (py : builtins)
    (current_pipeline_type : string) (r : record) : record :=
  <["timestamp" := get r "timestamp"]>
  (<["turbine_id" := VStr ("turbine_" +:+ str_of py (get_or r "id" (VStr "001")))]>
  (<["site_id" := VStr "test_site"]>
  (<["temperature" := get r "temperature"]>
  (<["humidity" := get r "humidity"]>
  (<["pressure" := get_or r "pressure" (VFloat float_1013_25)]>
  (<["wind_speed" := VFloat (float_of_Z 15)]>
  (<["power_output" := VFloat (float_of_Z 1500)]>
  (<["pipeline_metadata" :=
       VDict (<["stage" := VStr current_pipeline_type]>
             (<["processed_at" := VStr "2024-01-15T10:30:00Z"]> ∅))]> ∅)))))))).

(** [float(v)].  An int beyond the range of a float raises OverflowError;
    a str is parsed; None, a list and a dict raise TypeError. *)
Definition float_ (py : builtins) (v : value) : outcome spec_float :=
  match v with
  | VFloat f => Return f
  | VInt z =>
      match float_of_Z z with
      | S754_infinity _ => Raise (OverflowError "int too large to convert to float")
      | f => Return f
      end
  | VBool b => Return (float_of_Z (if b then 1 else 0))
  | VStr s =>
      match float_of_str py s with
      | Some f => Return f
      | None => Raise (ValueError "could not convert string to float")
      end
  | VNone | VList _ | VDict _ =>
      Raise (TypeError "float() argument must be a string or a real number")
  end.

(** try: x = float(x) if x is not None else 0.0
    except (ValueError, TypeError): x = 0.0 *)
Definition coerce (py : builtins) (v : value) : outcome spec_float :=
  match v with
  | VNone => Return (S754_zero false)
  | _ =>
      match float_ py v with
      | Raise (ValueError _) | Raise (TypeError _) => Return (S754_zero false)
      | o => o
      end
  end.

(** [x < n] and [x > n] for a float [x] and an int literal [n]. *)
Definition lt_int (x : spec_float) (n : Z) : bool := SFltb x (float_of_Z n).
Definition gt_int (x : spec_float) (n : Z) : bool := SFltb (float_of_Z n) x.

(** [_mock_validate_record] *)
Definition _mock_validate_record (py : builtins) (r : record) : outcome bool :=
  let temp := get_or r "temperature" (VInt 0) in
  let humidity := get_or r "humidity" (VInt 0) in
  bind (coerce py temp) (fun temp =>
  bind (coerce py humidity) (fun humidity =>
  if lt_int temp (-20) || gt_int temp 60 then Return false
  else if lt_int humidity 0 || gt_int humidity 100 then Return false
  else Return true)).

(** [_validate_and_split_data]: the [for record in data] loop, with the two
    lists built so far. *)
Fixpoint split_loop (py : builtins) (current_pipeline_type : string)
    (data : list record) (valid_records invalid_records : list record)
    : outcome (list record * list record) :=
  match data with
  | [] => Return (valid_records, invalid_records)
  | r :: rest =>
      if String.eqb current_pipeline_type "raw" then
        split_loop py current_pipeline_type rest (valid_records ++ [r]) invalid_records
      else if String.eqb current_pipeline_type "schematized" then
        let transformed_record :=
          _mock_transform_to_turbine_schema py current_pipeline_type r in
        split_loop py current_pipeline_type rest
          (valid_records ++ [transformed_record]) invalid_records
      else if String.eqb current_pipeline_type "validated" then
        let transformed_record :=
          _mock_transform_to_turbine_schema py current_pipeline_type r in
        bind (_mock_validate_record py transformed_record) (fun ok =>
          if ok
          then split_loop py current_pipeline_type rest
                 (valid_records ++ [transformed_record]) invalid_records
          else split_loop py current_pipeline_type rest
                 valid_records (invalid_records ++ [transformed_record]))
      else if String.eqb current_pipeline_type "aggregated" then
        split_loop py current_pipeline_type rest (valid_records ++ [r]) invalid_records
      else if String.eqb current_pipeline_type "anomaly" then
        split_loop py current_pipeline_type rest (valid_records ++ [r]) invalid_records
      else
        split_loop py current_pipeline_type rest (valid_records ++ [r]) invalid_records
  end.

Definition _validate_and_split_data (py : builtins) (current_pipeline_type : string)
    (data : list record) : outcome (list record * list record) :=
  split_loop py current_pipeline_type data [] [].

(** The decision of [_mock_validate_record] on coerced values. *)
Definition passes (t h : spec_float) : bool :=
  negb (lt_int t (-20) || gt_int t 60) && negb (lt_int h 0 || gt_int h 100).

(** The ranges in the words of the specification: a closed interval with
    integer bounds.  A NaN lies in no interval. *)
Definition in_closed_range (lo hi : Z) (x : spec_float) : bool :=
  SFleb (float_of_Z lo) x && SFleb x (float_of_Z hi).

Definition is_nan (x : spec_float) : bool :=
  match x with S754_nan => true | _ => false end.

(** The coerced temperature and humidity of an input record. *)
Definition coerced (py : builtins) (r : record) (key : string) : outcome spec_float :=
  coerce py (get r key).

(** The input record passes the ranges of the specification. *)
Definition within_ranges (py : builtins) (r : record) : bool :=
  match coerced py r "temperature", coerced py r "humidity" with
  | Return t, Return h => in_closed_range (-20) 60 t && in_closed_range 0 100 h
  | _, _ => false
  end.

(** What the default validator answers on the transform of an input record
    whose two fields convert: the check of the code, on the coerced values. *)
Definition accepted (py : builtins) (r : record) : bool :=
  match coerced py r "temperature", coerced py r "humidity" with
  | Return t, Return h => passes t h
  | _, _ => false
  end.

(** Both fields of the input record convert: [float] raises nothing that
    the except clause lets through. *)
Definition converts (py : builtins) (r : record) : Prop :=
  exists t h, coerced py r "temperature" = Return t
              /\ coerced py r "humidity" = Return h.

(** Both fields of the input record coerce to a number: the conversion
    raises nothing and gives no NaN. *)
Definition numbers (py : builtins) (r : record) : Prop :=
  exists t h, coerced py r "temperature" = Return t
              /\ coerced py r "humidity" = Return h
              /\ is_nan t = false /\ is_nan h = false.

(** Builtins for the examples: [str] of an int or a str, and a [float]
    that parses no string. *)
Definition py0 : builtins :=
  {| str_of := fun v => match v with
                        | VInt z => pretty z
                        | VStr s => s
                        | _ => "?"
                        end;
     float_of_str := fun _ => None |}.

(** The fixture [sample_data] of the tests (22.5 is 45/2). *)
Definition sample_data : list record :=
  [ <["id" := VInt 1]> (<["timestamp" := VStr "2024-01-15T10:30:00Z"]>
      (<["temperature" := VFloat (binary_normalize prec emax 45 (-1) false)]>
      (<["humidity" := VFloat (float_of_Z 65)]>
      (<["location" := VStr "turbine_001"]> ∅))));
    <["id" := VInt 2]> (<["timestamp" := VStr "2024-01-15T10:31:00Z"]>
      (<["temperature" := VFloat (float_of_Z (-50))]>
      (<["humidity" := VFloat (float_of_Z 45)]>
      (<["location" := VStr "turbine_002"]> ∅))));
    <["id" := VInt 3]> (<["timestamp" := VStr "2024-01-15T10:32:00Z"]>
      (<["temperature" := VFloat (float_of_Z 25)]>
      (<["humidity" := VFloat (float_of_Z 120)]>
      (<["location" := VStr "turbine_003"]> ∅)))) ].

(** A record whose temperature is NaN. *)
Definition nan_record : record := <["temperature" := VFloat S754_nan]> ∅.

(** [self.pipeline_bucket_map] of [MockUploader.__init__] *)
Definition pipeline_bucket_map : gmap string string :=
  <["raw" := "ingestion"]>
  (<["ingestion" := "ingestion"]>
  (<["schematized" := "schematized"]>
  (<["validated" := "SPLIT"]>
  (<["anomaly" := "anomalies"]>
  (<["anomalies" := "anomalies"]>
  (<["aggregated" := "aggregated"]>
  (<["enriched" := "enriched"]>
  (<["filtered" := "enriched"]> ∅)))))))).

(** What [_validate_and_split_data] does to a record before it puts it in
    one of the lists: the transformation in the phases schematized and
    validated, nothing in the others. *)
Definition processed (py : builtins) (current_pipeline_type : string)
    (r : record) : record :=
  if String.eqb current_pipeline_type "schematized"
     || String.eqb current_pipeline_type "validated"
  then _mock_transform_to_turbine_schema py current_pipeline_type r
  else r.

End Router.

(** ** sensor_db_reader.py: introspection *)

Module Introspection.

Import Reader.

(** A row of PRAGMA table_info: (cid, name, type, notnull, dflt_value, pk). *)
Record table_info_row := {
  cid : Z;
  col_name : string;
  col_type : string;
  notnull : Z;
  dflt_value : value;
  pk : Z
}.

(** An entry of ["columns"] in the dict of [get_table_info]. *)
Record column := {
  name : string;
  type : string;
  nullable : bool;
  default_ : value;
  primary_key : bool
}.

(** The dict [get_table_info] returns. *)
Record table_info := {
  table_name : string;
  columns : list column;
  row_count : Z;
  sample_row : option record
}.

(** What SQLite answers about the schema: the names in [sqlite_master] with
    type 'table', and, for the text of a table name as it is put into the
    statement, the rows of PRAGMA table_info, the count of SELECT COUNT( * ),
    and the row of SELECT * ... LIMIT 1 if there is one. *)
Record catalog := {
  master_tables : list string;
  pragma_table_info : string -> outcome (list table_info_row);
  count_rows : string -> outcome Z;
  first_row : string -> outcome (option record)
}.

Definition column_of_row (row : table_info_row) : column :=
  {| name := col_name row; type := col_type row;
     nullable := (notnull row =? 0);
     default_ := dflt_value row;
     primary_key := negb (pk row =? 0) |}.

Definition q_exists : string :=
  "SELECT name FROM sqlite_master WHERE type='table' AND name=?".

Definition not_found (table_name_ : string) : exn :=
  ValueError ("Table '" +:+ table_name_ +:+ "' not found in sensor database").

(** The block of [get_table_info]: the statements it executes, in order, up
    to the one that raises, and what it returns or raises. *)
Definition table_info_block (cat : catalog) (table_name_ : string)
    : list string * outcome table_info :=
  let q_pragma := "PRAGMA table_info(" +:+ table_name_ +:+ ")" in
  let q_count := "SELECT COUNT(*) FROM " +:+ table_name_ in
  let q_sample := "SELECT * FROM " +:+ table_name_ +:+ " LIMIT 1" in
  if bool_decide (table_name_ ∈ master_tables cat) then
    match pragma_table_info cat table_name_ with
    | Raise e => ([q_exists; q_pragma], Raise e)
    | Return rows =>
        match count_rows cat table_name_ with
        | Raise e => ([q_exists; q_pragma; q_count], Raise e)
        | Return n =>
            match first_row cat table_name_ with
            | Raise e => ([q_exists; q_pragma; q_count; q_sample], Raise e)
            | Return sample =>
                ([q_exists; q_pragma; q_count; q_sample],
                 Return {| table_name := table_name_;
                           columns := map column_of_row rows;
                           row_count := n;
                           sample_row := sample |})
            end
        end
    end
  else ([q_exists], Raise (not_found table_name_)).

(** [get_table_info] *)
Definition get_table_info (self : SensorDatabaseReader) (cat : catalog)
    (env : nat -> option exn) (table_name_ : string) : run table_info :=
  with_connection self env (table_info_block cat table_name_).

(** [list_tables]: ORDER BY name compares the names byte by byte. *)
Definition list_tables (self : SensorDatabaseReader) (cat : catalog)
    (env : nat -> option exn) : run (list string) :=
  with_connection self env
    (["SELECT name FROM sqlite_master WHERE type='table' ORDER BY name"],
     Return (@merge_sort string Metadata.str_le Metadata.str_le_dec (master_tables cat))).

(** [verify_connection]; [answer] is the first column of the row SQLite
    gives for SELECT 1, or the exception it raises. *)
Definition verify_connection (self : SensorDatabaseReader)
    (env : nat -> option exn) (answer : outcome Z) : bool :=
  match result (with_connection self env (["SELECT 1"], answer)) with
  | Return v => v =? 1
  | Raise _ => false
  end.

(** A catalog with the table of the tests. *)
Definition catalog0 : catalog :=
  {| master_tables := ["sensor_readings"; "alerts"];
     pragma_table_info := fun _ =>
       Return [ {| cid := 0; col_name := "id"; col_type := "INTEGER"; notnull := 0;
                   dflt_value := VNone; pk := 1 |};
                {| cid := 1; col_name := "timestamp"; col_type := "TEXT"; notnull := 1;
                   dflt_value := VNone; pk := 0 |} ];
     count_rows := fun _ => Return 5;
     first_row := fun _ => Return (head five_rows) |}.

End Introspection.

(** * Properties *)

Section ControllerFacts.
Import Controller.

Implicit Types (rs : list config_row) (log : list event) (f : fault).
Implicit Types (p : PipelineType) (b r : option string).

Lemma count_active_app rs1 rs2 :
  count_active (rs1 ++ rs2) = (count_active rs1 + count_active rs2)%nat.
Proof. unfold count_active. by rewrite filter_app, length_app. Qed.

Lemma active_deactivate (row : config_row) : active (deactivate row) = false.
Proof.
  unfold deactivate. destruct (active row) eqn:E; [reflexivity | exact E].
Qed.

Lemma count_active_deactivate rs : count_active (update_deactivate rs) = 0%nat.
Proof.
  unfold count_active, update_deactivate.
  induction rs as [|row rs IH]; [reflexivity|].
  cbn [map]. rewrite filter_cons_False; [exact IH|].
  rewrite active_deactivate. discriminate.
Qed.

Lemma count_active_insert now ptype b r rs :
  count_active (insert_config now ptype b r rs) = S (count_active rs).
Proof.
  unfold insert_config. rewrite count_active_app.
  change (count_active [_]) with 1%nat. lia.
Qed.

Lemma switched_eq now p b r rs :
  switched now p b r rs
  = insert_config now (PipelineType_value p) (Some (or_unknown b)) r
      (update_deactivate rs).
Proof. reflexivity. Qed.

Lemma count_active_switched now p b r rs :
  count_active (switched now p b r rs) = 1%nat.
Proof.
  by rewrite switched_eq, count_active_insert, count_active_deactivate.
Qed.

Lemma sleeps_app t1 t2 : sleeps (t1 ++ t2) = sleeps t1 ++ sleeps t2.
Proof. apply omap_app. Qed.

Lemma connects_app t1 t2 : connects (t1 ++ t2) = (connects t1 + connects t2)%nat.
Proof. unfold connects. by rewrite List.filter_app, length_app. Qed.

Lemma statements_app t1 t2 : statements (t1 ++ t2) = statements t1 ++ statements t2.
Proof. apply omap_app. Qed.

(** An attempt in which a call raises: the exception comes out, the
    committed rows are what they were, nothing is slept, one connection
    is opened. *)
Lemma set_attempt_fault now p b r rs log n e :
  (n < 5)%nat ->
  exists log',
    with_connection now (FaultAt n e) (set_stmts p b r) rs log = (Raise e, rs, log')
    /\ sleeps log' = sleeps log
    /\ connects log' = S (connects log).
Proof.
  intros Hn. unfold with_connection, set_stmts.
  do 5 (destruct n as [|n];
        [cbn; eexists; split; [reflexivity|];
         rewrite ?sleeps_app, ?connects_app; cbn;
         rewrite ?app_nil_r; split; [reflexivity | lia]|]).
  lia.
Qed.

(** An attempt in which no call raises commits deactivate-then-insert. *)
Lemma set_attempt_ok now f p b r rs log :
  (forall n, (n < 5)%nat -> raises_at f n = None) ->
  with_connection now f (set_stmts p b r) rs log
  = (Return (switched now p b r rs), switched now p b r rs,
     log ++ Connect :: map Exec (set_stmts p b r)).
Proof.
  intros H. unfold with_connection, set_stmts.
  rewrite (H 0%nat) by lia. cbn.
  rewrite (H 1%nat), (H 2%nat), (H 3%nat), (H 4%nat) by lia.
  by rewrite <- !app_assoc.
Qed.

Lemma fault_cases f :
  (exists n e, (n < 5)%nat /\ f = FaultAt n e)
  \/ (forall n, (n < 5)%nat -> raises_at f n = None).
Proof.
  destruct f as [|m e]; [by right|].
  destruct (decide (m < 5)%nat) as [Hm|Hm]; [left; eauto|].
  right. intros n Hn. cbn. destruct (Nat.eqb_spec m n); [lia|done].
Qed.

(** Whatever the environment does, a call either commits the switch and
    returns [True], or raises and leaves the committed rows alone.  It
    never returns [False]: the loop cannot run out, since the last attempt
    is not retried. *)
Lemma set_loop_cases clock env p b r n a rs log :
  (a + n = 5)%nat -> (0 < n)%nat ->
  let res := set_pipeline_loop clock env p b r (seq a n) rs log in
  (exists k, (a <= k < 5)%nat /\ result res = Return true
             /\ final res = switched (clock k) p b r rs)
  \/ (exists e, result res = Raise e /\ final res = rs).
Proof.
  revert a log. induction n as [|n IH]; intros a log Ha Hn; [lia|].
  cbn [seq set_pipeline_loop].
  destruct (fault_cases (env a)) as [(j & e & Hj & ->)|Hok].
  - destruct (set_attempt_fault (clock a) p b r rs log j e Hj) as (log' & -> & _).
    destruct (retryable e a) eqn:Hre; [|right; eauto].
    assert (a < 4)%nat as Ha4.
    { destruct e; try discriminate. unfold retryable in Hre.
      apply andb_true_iff in Hre as [_ Hre].
      apply Nat.ltb_lt in Hre. unfold max_retries in Hre. lia. }
    destruct (IH (S a) (log' ++ [Sleep (backoff a)])) as [(k & Hk & ?)|?];
      [lia | lia | left; exists k; split; [lia | done] | by right].
  - rewrite (set_attempt_ok _ _ _ _ _ _ _ Hok). cbn.
    left. exists a. split; [lia | done].
Qed.

Lemma retryable_spec e a :
  retryable e a = lock_contention e && (a <? 4)%nat.
Proof. destruct e; reflexivity. Qed.

(** [k] contended attempts in a row, none of them the last one, are all
    retried: the loop arrives at attempt [a + k] with the rows unchanged,
    having slept the [k] backoff delays and opened [k] connections. *)
Lemma set_loop_prefix clock env p b r k :
  forall a n rs log,
    (a + k <= 4)%nat -> (k <= n)%nat ->
    (forall i, (a <= i < a + k)%nat -> contended (env i)) ->
    exists log',
      set_pipeline_loop clock env p b r (seq a n) rs log
      = set_pipeline_loop clock env p b r (seq (a + k) (n - k)) rs log'
      /\ sleeps log' = sleeps log ++ map backoff (seq a k)
      /\ connects log' = (connects log + k)%nat.
Proof.
  induction k as [|k IH]; intros a n rs log Ha Hn Hlocked.
  - exists log. rewrite Nat.add_0_r, Nat.sub_0_r, app_nil_r. auto with lia.
  - destruct n as [|n]; [lia|].
    destruct (Hlocked a) as (j & e & Hj & Hf & He); [lia|].
    cbn [seq set_pipeline_loop]. rewrite Hf.
    destruct (set_attempt_fault (clock a) p b r rs log j e Hj)
      as (log1 & -> & Hs1 & Hc1).
    rewrite retryable_spec, He.
    replace (a <? 4)%nat with true by (symmetry; apply Nat.ltb_lt; lia).
    cbn [andb].
    destruct (IH (S a) n rs (log1 ++ [Sleep (backoff a)])) as (log' & -> & Hs & Hc);
      [lia | lia | intros i Hi; apply Hlocked; lia |].
    exists log'. replace (a + S k)%nat with (S a + k)%nat by lia.
    split; [reflexivity|]. split.
    + rewrite Hs, sleeps_app, Hs1. cbn. by rewrite <- app_assoc.
    + rewrite Hc, connects_app, Hc1. cbn. lia.
Qed.

Lemma do_call_cases (c : call) rs :
  (exists k, (k < 5)%nat /\ result (do_call c rs) = Return true
     /\ final (do_call c rs)
        = switched (call_clock c k) (call_type c) (call_by c) (call_reason c) rs)
  \/ (exists e, result (do_call c rs) = Raise e /\ final (do_call c rs) = rs).
Proof.
  unfold do_call, set_pipeline, max_retries.
  destruct (set_loop_cases (call_clock c) (call_env c) (call_type c) (call_by c)
              (call_reason c) 5 0 rs []) as [(k & Hk & ?)|?];
    [lia | lia | left; exists k; split; [lia | done] | by right].
Qed.

Lemma init_has_active now (db : config_db) :
  (1 <= count_active (rows (_init_database now db)))%nat.
Proof.
  unfold _init_database. cbn [rows].
  destruct (Nat.eqb_spec (count_active
    (if has_is_active db then rows db else map add_is_active (rows db))) 0)
    as [E|E].
  - rewrite count_active_insert. lia.
  - lia.
Qed.

Lemma run_calls_completed (cs : list call) rs :
  Forall (fun res => result res = Return true -> count_active (final res) = 1%nat)
    (run_calls cs rs).
Proof.
  revert rs. induction cs as [|c cs IH]; intros rs; cbn [run_calls];
    constructor; [|apply IH].
  destruct (do_call_cases c rs) as [(k & _ & _ & ->)|(e & -> & _)];
    [intros _; apply count_active_switched | discriminate].
Qed.

Lemma run_calls_invariant (cs : list call) rs :
  count_active rs = 1%nat ->
  Forall (fun res => count_active (final res) = 1%nat) (run_calls cs rs).
Proof.
  revert rs. induction cs as [|c cs IH]; intros rs Hrs; cbn [run_calls];
    [constructor|].
  assert (count_active (final (do_call c rs)) = 1%nat) as H.
  { destruct (do_call_cases c rs) as [(k & _ & _ & ->)|(e & _ & ->)];
      [apply count_active_switched | exact Hrs]. }
  constructor; [exact H | by apply IH].
Qed.

(** The outcome of a call, read off its environment: the call returns
    [True] exactly when the first attempt that is not retried is undisturbed,
    and then the last connection of the trace carries the whole write
    transaction; it raises exactly when that attempt meets a fault. *)
Lemma set_loop_outcome clock env p b r n a rs log :
  (a + n = 5)%nat -> (0 < n)%nat ->
  let res := set_pipeline_loop clock env p b r (seq a n) rs log in
  (exists k, (a <= k < 5)%nat
     /\ (forall i, (a <= i < k)%nat -> contended (env i))
     /\ undisturbed (env k)
     /\ result res = Return true
     /\ final res = switched (clock k) p b r rs
     /\ exists log', trace res = log' ++ Connect :: map Exec (set_stmts p b r))
  \/ (exists k j e, (a <= k < 5)%nat /\ (j < 5)%nat
     /\ (forall i, (a <= i < k)%nat -> contended (env i))
     /\ env k = FaultAt j e /\ retryable e k = false
     /\ result res = Raise e /\ final res = rs).
Proof.
  revert a log. induction n as [|n IH]; intros a log Ha Hn; [lia|].
  cbn [seq set_pipeline_loop].
  destruct (fault_cases (env a)) as [(j & e & Hj & Hf)|Hok].
  - rewrite Hf.
    destruct (set_attempt_fault (clock a) p b r rs log j e Hj) as (log' & -> & _).
    destruct (retryable e a) eqn:Hre.
    + assert (lock_contention e = true /\ (a < 4)%nat) as [He Ha4].
      { rewrite retryable_spec in Hre. apply andb_true_iff in Hre as [? Hre].
        apply Nat.ltb_lt in Hre. done. }
      assert (contended (env a)) as Hca by (exists j, e; done).
      destruct (IH (S a) (log' ++ [Sleep (backoff a)]))
        as [(k & Hk & Hpre & rest)|(k & j' & e' & Hk & Hj' & Hpre & rest)];
        [lia | lia | left | right].
      * exists k. split; [lia|]. split; [|exact rest].
        intros i Hi. destruct (decide (i = a)) as [->|Hia];
          [exact Hca | apply Hpre; lia].
      * exists k, j', e'. split; [lia|]. split; [exact Hj'|]. split; [|exact rest].
        intros i Hi. destruct (decide (i = a)) as [->|Hia];
          [exact Hca | apply Hpre; lia].
    + right. exists a, j, e. cbn [result final].
      split; [lia|]. split; [exact Hj|]. split; [intros i Hi; lia|]. done.
  - rewrite (set_attempt_ok _ _ _ _ _ _ _ Hok). cbn [result final trace].
    left. exists a. split; [lia|]. split; [intros i Hi; lia|].
    split; [exact Hok|]. split; [done|]. split; [done|]. by exists log.
Qed.

(** The migration of a file without the [is_active] column makes every
    row active, and no default row is added to a table that has rows. *)
Lemma init_legacy now (db : config_db) :
  has_is_active db = false -> rows db <> [] ->
  rows (_init_database now db) = map add_is_active (rows db)
  /\ count_active (rows (_init_database now db)) = length (rows db).
Proof.
  intros Hno Hrows. unfold _init_database. rewrite Hno. cbn [rows].
  assert (forall l, count_active (map add_is_active l) = length l) as Hall.
  { induction l as [|row l IH]; [reflexivity|].
    change (map add_is_active (row :: l))
      with ([add_is_active row] ++ map add_is_active l).
    rewrite count_active_app, IH. reflexivity. }
  rewrite Hall. destruct (rows db) as [|row l]; [done|]. cbn [length Nat.eqb].
  split; [reflexivity | apply (Hall (row :: l))].
Qed.

(** In a sequence of calls, the rows are those the store started with until
    a call returns [True], and hold exactly one active row from then on. *)
Lemma run_calls_one_or_initial (cs : list call) rs :
  Forall (fun res => count_active (final res) = 1%nat \/ final res = rs)
    (run_calls cs rs).
Proof.
  revert rs. induction cs as [|c cs IH]; intros rs; cbn [run_calls];
    [constructor|].
  destruct (do_call_cases c rs) as [(k & _ & _ & Hf)|(e & _ & Hf)].
  - assert (count_active (final (do_call c rs)) = 1%nat) as H1
      by (rewrite Hf; apply count_active_switched).
    constructor; [by left|].
    apply Forall_forall. intros res Hres. left.
    by apply (proj1 (Forall_forall _ _)
                (run_calls_invariant cs (final (do_call c rs)) H1)).
  - constructor; [by right|]. rewrite Hf. apply IH.
Qed.

(** C1, as the code has it.  [_init_database] leaves at least one active
    row, and exactly one in a new file.  A [set_pipeline] call returns
    [True] exactly when, after attempts that met lock contention, an attempt
    meets no fault; that attempt runs BEGIN IMMEDIATE, the UPDATE that
    deactivates every active row, the INSERT of one active row and the
    COMMIT on one connection, and the committed rows are then the old rows
    deactivated plus the new row: exactly one row is active.  A call that
    does not return [True] raises the exception of the fault it met and
    leaves the committed rows as they were.  So in every sequence of calls
    each state is either the initial one or has exactly one active row; from
    a store with one active row every state has exactly one.  A file
    without the [is_active] column that holds rows is initialised with all
    of them active.  Inside the transaction the UPDATE leaves no active row
    and the INSERT makes one. *)
Theorem set_pipeline_exactly_one_active (now : string) (db : config_db)
    (cs : list call) :
  let rs0 := rows (_init_database now db) in
  (1 <= count_active rs0)%nat
  /\ count_active (rows (_init_database now fresh_db)) = 1%nat
  /\ Forall (fun res => result res = Return true ->
                        count_active (final res) = 1%nat) (run_calls cs rs0)
  /\ (count_active rs0 = 1%nat ->
      Forall (fun res => count_active (final res) = 1%nat) (run_calls cs rs0))
  /\ (has_is_active db = false -> rows db <> [] ->
      rs0 = map add_is_active (rows db)
      /\ count_active rs0 = length (rows db))
  /\ Forall (fun res => count_active (final res) = 1%nat \/ final res = rs0)
       (run_calls cs rs0)
  /\ (forall (c : call) rs k,
        (k < 5)%nat ->
        (forall i, (i < k)%nat -> contended (call_env c i)) ->
        undisturbed (call_env c k) ->
        result (do_call c rs) = Return true
        /\ final (do_call c rs)
           = exec (call_clock c k)
               (InsertConfig (PipelineType_value (call_type c))
                  (Some (or_unknown (call_by c))) (call_reason c))
               (exec (call_clock c k) UpdateDeactivate rs)
        /\ count_active (final (do_call c rs)) = 1%nat)
  /\ (forall (c : call) rs,
        (exists k, (k < 5)%nat
           /\ (forall i, (i < k)%nat -> contended (call_env c i))
           /\ undisturbed (call_env c k)
           /\ result (do_call c rs) = Return true
           /\ final (do_call c rs)
              = exec (call_clock c k)
                  (InsertConfig (PipelineType_value (call_type c))
                     (Some (or_unknown (call_by c))) (call_reason c))
                  (exec (call_clock c k) UpdateDeactivate rs)
           /\ exists log',
                trace (do_call c rs)
                = log' ++ [ Connect; Exec BeginImmediate; Exec UpdateDeactivate;
                            Exec (InsertConfig (PipelineType_value (call_type c))
                                    (Some (or_unknown (call_by c))) (call_reason c));
                            Exec Commit ])
        \/ (exists k n e, (k < 5)%nat /\ (n < 5)%nat
              /\ (forall i, (i < k)%nat -> contended (call_env c i))
              /\ call_env c k = FaultAt n e /\ retryable e k = false
              /\ result (do_call c rs) = Raise e /\ final (do_call c rs) = rs))
  /\ (forall now' ptype b r rs,
        count_active (exec now' UpdateDeactivate rs) = 0%nat
        /\ count_active (exec now' (InsertConfig ptype b r)
                           (exec now' UpdateDeactivate rs)) = 1%nat).
Proof.
  intros rs0. split; [apply init_has_active|].
  split; [reflexivity|].
  split; [apply run_calls_completed|].
  split; [apply run_calls_invariant|].
  split; [apply init_legacy|].
  split; [apply run_calls_one_or_initial|].
  split.
  { intros c rs k Hk Hpre Hok. unfold do_call, set_pipeline, max_retries.
    destruct (set_loop_prefix (call_clock c) (call_env c) (call_type c) (call_by c)
                (call_reason c) k 0 5 rs []) as (log' & -> & _);
      [lia | lia | intros i Hi; apply Hpre; lia |].
    destruct (5 - k)%nat as [|m] eqn:Hm; [lia|].
    cbn [seq set_pipeline_loop Nat.add].
    rewrite (set_attempt_ok _ _ _ _ _ _ _ Hok). cbn [result final].
    split; [done|]. split; [done|]. apply count_active_switched. }
  split.
  { intros c rs. unfold do_call, set_pipeline, max_retries.
    destruct (set_loop_outcome (call_clock c) (call_env c) (call_type c) (call_by c)
                (call_reason c) 5 0 rs [])
      as [(k & Hk & Hpre & rest)|(k & n & e & Hk & Hn & Hpre & rest)];
      [lia | lia | left | right].
    - exists k. split; [lia|]. split; [intros i Hi; apply Hpre; lia | exact rest].
    - exists k, n, e. split; [lia|]. split; [exact Hn|].
      split; [intros i Hi; apply Hpre; lia | exact rest]. }
  intros now' ptype b r rs. cbn [exec].
  by rewrite count_active_insert, count_active_deactivate.
Qed.

(** The attempt reached after [k] retried ones raises [e], and [e] is not
    retried there. *)
Lemma set_pipeline_raises clock env p b r rs k n e :
  (k < 5)%nat -> (n < 5)%nat ->
  (forall i, (i < k)%nat -> contended (env i)) ->
  env k = FaultAt n e ->
  retryable e k = false ->
  let res := set_pipeline clock env p b r rs in
  result res = Raise e /\ final res = rs
  /\ connects (trace res) = S k
  /\ sleeps (trace res) = map backoff (seq 0 k).
Proof.
  intros Hk Hn Hpre Hf Hre. unfold set_pipeline, max_retries.
  destruct (set_loop_prefix clock env p b r k 0 5 rs []) as (log' & -> & Hs & Hc);
    [lia | lia | intros i Hi; apply Hpre; lia |].
  destruct (5 - k)%nat as [|m] eqn:Hm; [lia|].
  cbn [seq set_pipeline_loop Nat.add]. rewrite Hf.
  destruct (set_attempt_fault (clock k) p b r rs log' n e Hn)
    as (log1 & -> & Hs1 & Hc1).
  rewrite Hre. cbn [result final trace].
  rewrite Hs1, Hs, Hc1, Hc. auto.
Qed.

Lemma set_pipeline_succeeds clock env p b r rs k :
  (k < 5)%nat ->
  (forall i, (i < k)%nat -> contended (env i)) ->
  undisturbed (env k) ->
  let res := set_pipeline clock env p b r rs in
  result res = Return true /\ final res = switched (clock k) p b r rs
  /\ connects (trace res) = S k
  /\ sleeps (trace res) = map backoff (seq 0 k).
Proof.
  intros Hk Hpre Hok. unfold set_pipeline, max_retries.
  destruct (set_loop_prefix clock env p b r k 0 5 rs []) as (log' & -> & Hs & Hc);
    [lia | lia | intros i Hi; apply Hpre; lia |].
  destruct (5 - k)%nat as [|m] eqn:Hm; [lia|].
  cbn [seq set_pipeline_loop Nat.add].
  rewrite (set_attempt_ok _ _ _ _ _ _ _ Hok). cbn [result final trace].
  rewrite sleeps_app, connects_app, Hs, Hc. cbn.
  rewrite app_nil_r. auto with lia.
Qed.

(** C3.  [set_pipeline] under lock contention.  (1) When all five attempts
    meet lock contention, the call has slept 0.1, 0.2, 0.4 and 0.8 seconds
    between them, has opened five connections, and raises the lock error of
    the fifth attempt, with the rows unchanged.  (2) An error that is not
    lock contention is raised by the attempt that meets it, with no sleep
    and no further attempt after it.  (3) An undisturbed attempt after [k]
    contended ones commits.  (4) No environment makes the call return
    [False].  (5) The delays double from 0.1. *)
Theorem set_pipeline_retry_policy (clock : nat -> string) (env : nat -> fault)
    p b r rs :
  let res := set_pipeline clock env p b r rs in
  ((forall i, (i < 5)%nat -> contended (env i)) ->
     exists n e, env 4%nat = FaultAt n e /\ lock_contention e = true
       /\ result res = Raise e /\ final res = rs
       /\ connects (trace res) = 5%nat
       /\ sleeps (trace res) = map backoff [0; 1; 2; 3]%nat)
  /\ (forall k n e,
        (k < 5)%nat -> (n < 5)%nat ->
        (forall i, (i < k)%nat -> contended (env i)) ->
        env k = FaultAt n e -> lock_contention e = false ->
        result res = Raise e /\ final res = rs
        /\ connects (trace res) = S k
        /\ sleeps (trace res) = map backoff (seq 0 k))
  /\ (forall k,
        (k < 5)%nat ->
        (forall i, (i < k)%nat -> contended (env i)) ->
        undisturbed (env k) ->
        result res = Return true /\ final res = switched (clock k) p b r rs
        /\ connects (trace res) = S k
        /\ sleeps (trace res) = map backoff (seq 0 k))
  /\ result res <> Return false
  /\ map backoff [0; 1; 2; 3]%nat
     = [ S754_finite false 7205759403792794 (-56);
         S754_finite false 7205759403792794 (-55);
         S754_finite false 7205759403792794 (-54);
         S754_finite false 7205759403792794 (-53) ]
  /\ (forall k, (k < 3)%nat -> backoff (S k) = fmul (float_of_Z 2) (backoff k)).
Proof.
  intros res. split; [|split; [|split; [|split; [|split]]]].
  - intros Hall. destruct (Hall 4%nat) as (n & e & Hn & Hf & He); [lia|].
    exists n, e. split; [exact Hf|]. split; [exact He|].
    apply (set_pipeline_raises clock env p b r rs 4 n e); auto with lia.
    by rewrite retryable_spec, He.
  - intros k n e Hk Hn Hpre Hf He.
    apply (set_pipeline_raises clock env p b r rs k n e); auto.
    by rewrite retryable_spec, He.
  - intros k Hk Hpre Hok. by apply set_pipeline_succeeds.
  - subst res. unfold set_pipeline, max_retries.
    destruct (set_loop_cases clock env p b r 5 0 rs [])
      as [(k & _ & -> & _)|(e & -> & _)]; [lia | lia | discriminate..].
  - vm_compute. reflexivity.
  - intros k Hk. do 3 (destruct k as [|k]; [vm_compute; reflexivity|]). lia.
Qed.

(** The three example calls on a fresh store: the first finds the database
    locked at BEGIN IMMEDIATE twice, is retried and commits, the second exhausts its retries, the third commits at once. *)
Example three_calls_results :
  map result (run_calls [call_validated; call_refused; call_raw]
                (rows (_init_database "2024-01-15 10:00:00" fresh_db)))
  = [Return true; Raise (OperationalError "database is locked"); Return true].
Proof. vm_compute. reflexivity. Qed.

Example three_calls_rows :
  map (fun res => map (fun row => (id row, pipeline_type row, is_active row)) (final res))
      (run_calls [call_validated; call_refused; call_raw]
         (rows (_init_database "2024-01-15 10:00:00" fresh_db)))
  = [ [(1, "raw", Some 0); (2, "validated", Some 1)];
      [(1, "raw", Some 0); (2, "validated", Some 1)];
      [(1, "raw", Some 0); (2, "validated", Some 0); (3, "raw", Some 1)] ].
Proof. vm_compute. reflexivity. Qed.

Example retried_call_trace :
  trace (do_call call_validated [])
  = [ Connect; Rollback; Sleep (backoff 0);
      Connect; Rollback; Sleep (backoff 1);
      Connect; Exec BeginImmediate; Exec UpdateDeactivate;
      Exec (InsertConfig "validated" (Some "user1") (Some "enable validation"));
      Exec Commit ].
Proof. vm_compute. reflexivity. Qed.

(** An error that is not lock contention, met at the second attempt. *)
Example disk_error_propagates :
  let res := set_pipeline clock0 env_disk_error RAW None None [] in
  result res = Raise (OperationalError "disk I/O error")
  /\ connects (trace res) = 2%nat /\ sleeps (trace res) = [backoff 0].
Proof. vm_compute. auto. Qed.

(** A file written before the [is_active] column existed: every old row
    counts as active after [_init_database], and the first completed
    [set_pipeline] leaves one. *)
Example legacy_file :
  let rs0 := rows (_init_database "2024-01-15 10:00:00" legacy_db) in
  count_active rs0 = 2%nat
  /\ count_active (final (do_call call_raw rs0)) = 1%nat.
Proof. vm_compute. auto. Qed.

Lemma set_pipeline_exactly_one_active_witness :
  let rs0 := rows (_init_database "2024-01-15 10:00:00" fresh_db) in
  (forall i, (i < 2)%nat -> contended (call_env call_validated i))
  /\ undisturbed (call_env call_validated 2)
  /\ (result (do_call call_validated rs0) = Return true
      /\ final (do_call call_validated rs0)
         = exec (clock0 2%nat)
             (InsertConfig "validated" (Some "user1") (Some "enable validation"))
             (exec (clock0 2%nat) UpdateDeactivate rs0)
      /\ count_active (final (do_call call_validated rs0)) = 1%nat)
  /\ count_active rs0 = 1%nat
  /\ Forall (fun res => count_active (final res) = 1%nat)
       (run_calls [call_validated; call_refused; call_raw] rs0).
Proof.
  intros rs0.
  assert (forall i, (i < 2)%nat -> contended (call_env call_validated i)) as Hpre.
  { intros i Hi. exists 1%nat, (OperationalError "database is locked").
    split; [lia|]. split; [|reflexivity].
    destruct i as [|[|i]]; [reflexivity | reflexivity | lia]. }
  assert (undisturbed (call_env call_validated 2)) as Hok
    by (intros n _; reflexivity).
  pose proof (set_pipeline_exactly_one_active "2024-01-15 10:00:00" fresh_db
                [call_validated; call_refused; call_raw])
    as (_ & _ & _ & Hinv & _ & _ & Hpos & _).
  split; [exact Hpre|]. split; [exact Hok|].
  split; [exact (Hpos call_validated rs0 2%nat ltac:(lia) Hpre Hok)|].
  split; [reflexivity|]. apply Hinv. reflexivity.
Defined.

(** C1 as stated fails on a file written before the [is_active] column
    existed: [_init_database] marks every old row active, so that the
    initialised store has two active rows, and it still has two after a
    call that exhausts its retries. *)
Lemma legacy_store_has_two_active_rows :
  count_active (rows (_init_database "2024-01-15 10:00:00" legacy_db)) = 2%nat
  /\ result (do_call call_refused
               (rows (_init_database "2024-01-15 10:00:00" legacy_db)))
     = Raise (OperationalError "database is locked")
  /\ count_active (final (do_call call_refused
                     (rows (_init_database "2024-01-15 10:00:00" legacy_db))))
     = 2%nat
  /\ ~ (forall now db cs,
          Forall (fun res => (count_active (final res) <= 1)%nat)
            (run_calls cs (rows (_init_database now db)))).
Proof.
  split; [reflexivity|]. split; [reflexivity|]. split; [reflexivity|].
  intros H. specialize (H "2024-01-15 10:00:00" legacy_db [call_refused]).
  apply Forall_cons in H as [H _]. vm_compute in H. lia.
Qed.

Lemma env_locked_contended i : contended (env_locked i).
Proof. exists 1%nat, (OperationalError "database is locked"). by repeat split; auto. Qed.

Lemma set_pipeline_retry_policy_witness :
  (forall i, (i < 5)%nat -> contended (env_locked i))
  /\ exists n e,
       env_locked 4 = FaultAt n e /\ lock_contention e = true
       /\ result (set_pipeline clock0 env_locked RAW None None []) = Raise e
       /\ final (set_pipeline clock0 env_locked RAW None None []) = []
       /\ connects (trace (set_pipeline clock0 env_locked RAW None None [])) = 5%nat
       /\ sleeps (trace (set_pipeline clock0 env_locked RAW None None []))
          = map backoff [0; 1; 2; 3]%nat.
Proof.
  split; [intros i _; apply env_locked_contended|].
  apply (set_pipeline_retry_policy clock0 env_locked RAW None None []).
  intros i _. apply env_locked_contended.
Defined.

(** *** get_current_pipeline *)

(** The record a read of the rows [rs] gives. *)
Lemma select_current_none rs :
  select_current rs = None <-> count_active rs = 0%nat.
Proof.
  unfold select_current, count_active.
  induction rs as [|row rs IH]; [done|].
  cbn [fold_right]. unfold latest at 1.
  destruct (active row) eqn:E.
  - rewrite filter_cons_True by done.
    split; [|discriminate]. by destruct (fold_right latest None rs); [case_match|].
  - rewrite filter_cons_False by (rewrite E; discriminate). exact IH.
Qed.

Lemma get_attempt now f rs log :
  exists o log',
    with_connection now f [SelectCurrent] rs log = (o, rs, log')
    /\ (o = Return rs \/ exists e, o = Raise e)
    /\ (Forall (fun s => s = SelectCurrent) (statements log) ->
        Forall (fun s => s = SelectCurrent) (statements log')).
Proof.
  unfold with_connection.
  destruct (raises_at f 0) as [e|] eqn:E0.
  - eexists _, _. split; [reflexivity|]. split; [eauto|].
    rewrite !statements_app. cbn. by rewrite app_nil_r.
  - cbn [run_stmts]. destruct (raises_at f 1) as [e|] eqn:E1.
    + eexists _, _. split; [reflexivity|]. split; [eauto|].
      rewrite !statements_app. cbn. by rewrite !app_nil_r.
    + eexists _, _. split; [reflexivity|]. split; [eauto|].
      rewrite !statements_app. cbn. rewrite app_nil_r.
      intros H. apply Forall_app. split; [exact H|]. by repeat constructor.
Qed.

Lemma get_loop now_iso env (attempts : list nat) :
  forall rs log,
    Forall (fun s => s = SelectCurrent) (statements log) ->
    let res := get_current_pipeline_loop now_iso env attempts rs log in
    final res = rs
    /\ Forall (fun s => s = SelectCurrent) (statements (trace res))
    /\ (forall c, result res = Return c ->
          c = match select_current rs with
              | Some row => dict_of_row row
              | None => default_config now_iso
              end).
Proof.
  induction attempts as [|a attempts IH]; intros rs log Hlog.
  - cbn. split; [done|]. split; [done|]. discriminate.
  - cbn [get_current_pipeline_loop].
    destruct (get_attempt now_iso (env a) rs log) as (o & log' & -> & Ho & Hlog').
    specialize (Hlog' Hlog).
    destruct Ho as [->|[e ->]].
    + cbn. split; [done|]. split; [done|]. by intros c [= <-].
    + destruct (retryable e a).
      * apply IH. rewrite statements_app. cbn. by rewrite app_nil_r.
      * cbn. split; [done|]. split; [done|]. discriminate.
Qed.

(** C9.  [get_current_pipeline] leaves the committed rows of the
    configuration database as they are in every environment, that is on the
    paths that return, that retry and that raise; the only statement it
    sends is its SELECT.  What it returns is the newest active row or, when
    no row is active, a default record with phase raw and actor system,
    which is not inserted. *)
Theorem get_current_pipeline_read_only (now_iso : string) (env : nat -> fault) rs :
  let res := get_current_pipeline now_iso env rs in
  final res = rs
  /\ Forall (fun s => s = SelectCurrent) (statements (trace res))
  /\ Forall (fun s => is_select s = true) (statements (trace res))
  /\ (forall c, result res = Return c ->
        c = match select_current rs with
            | Some row => dict_of_row row
            | None => default_config now_iso
            end)
  /\ (count_active rs = 0%nat ->
      (forall c, result res = Return c ->
         cur_pipeline_type c = "raw" /\ cur_created_by c = Some "system")
      /\ result (get_current_pipeline now_iso (fun _ => NoFault) rs)
         = Return (default_config now_iso)
      /\ final (get_current_pipeline now_iso (fun _ => NoFault) rs) = rs).
Proof.
  intros res.
  destruct (get_loop now_iso env (seq 0 max_retries) rs []) as (Hf & Hs & Hr);
    [constructor|].
  split; [exact Hf|]. split; [exact Hs|].
  split; [eapply Forall_impl; [exact Hs|]; by intros s ->|].
  split; [exact Hr|].
  intros Hnone. apply select_current_none in Hnone.
  split; [|split].
  - intros c Hc. apply Hr in Hc. rewrite Hnone in Hc. by subst c.
  - unfold get_current_pipeline. cbn -[select_current]. by rewrite Hnone.
  - reflexivity.
Qed.

Lemma get_current_pipeline_read_only_witness :
  count_active [] = 0%nat
  /\ result (get_current_pipeline "2024-01-15T10:30:00" (fun _ => NoFault) [])
     = Return (default_config "2024-01-15T10:30:00")
  /\ final (get_current_pipeline "2024-01-15T10:30:00" (fun _ => NoFault) []) = [].
Proof.
  split; [reflexivity|].
  apply (get_current_pipeline_read_only "2024-01-15T10:30:00" env_clear []).
  reflexivity.
Defined.

End ControllerFacts.

Section ReaderFacts.
Import Reader.

Implicit Types (self : SensorDatabaseReader) (db : sensor_db).
Implicit Types (env : nat -> option exn) (rs : list record).

Lemma executed_app t1 t2 : executed (t1 ++ t2) = executed t1 ++ executed t2.
Proof. apply omap_app. Qed.

(** With a connection at the first attempt, the block runs once, and what
    it returns is returned. *)
Lemma with_connection_return {A} self env (stmts : list string) (a : A) :
  0 < max_retries (config self) -> connects_at_once env ->
  with_connection self env (stmts, Return a)
  = {| result := Return a;
       trace := Connect (connection_string self) :: map Execute stmts ++ [Close] |}.
Proof.
  intros Hmr Henv. unfold with_connection.
  destruct (Z.to_nat (max_retries (config self))) as [|n] eqn:E; [lia|].
  cbn [seq get_connection_loop]. by rewrite Henv.
Qed.

(** Once an exception of the block has been absorbed by the retry, the
    generator cannot end well any more: the call raises. *)
Lemma resumed_raises {A} self env (body : list string * outcome A)
    (attempts : list nat) :
  forall log, exists e t,
    get_connection_loop self env body true attempts log
    = {| result := Raise e; trace := log ++ t |}.
Proof.
  induction attempts as [|a attempts IH]; intros log; cbn [get_connection_loop].
  - eexists _, []. by rewrite app_nil_r.
  - destruct (env a) as [e|].
    + destruct (retry_delay (config self) e a) as [d|].
      * destruct (IH ((log ++ [Connect (connection_string self)]) ++ [Sleep d]))
          as (e' & t & ->).
        eexists _, _. by rewrite <- !app_assoc.
      * by eexists _, _.
    + eexists _, _. by rewrite <- !app_assoc.
Qed.

(** However the block ends, with a connection at the first attempt its
    statements are executed first, and the call returns only what the block
    returns. *)
Lemma with_connection_first {A} self env (stmts : list string) (o : outcome A) :
  0 < max_retries (config self) -> connects_at_once env ->
  let r := with_connection self env (stmts, o) in
  (exists t, trace r = Connect (connection_string self) :: map Execute stmts ++ Close :: t)
  /\ (forall a, result r = Return a -> o = Return a).
Proof.
  intros Hmr Henv. destruct o as [a|e].
  - rewrite with_connection_return by done. cbn. split; [by exists []|done].
  - unfold with_connection.
    destruct (Z.to_nat (max_retries (config self))) as [|n] eqn:E; [lia|].
    cbn [seq get_connection_loop]. rewrite Henv. cbn [fst snd].
    destruct (retry_delay (config self) e 0) as [d|].
    + match goal with
      | |- context [get_connection_loop ?s ?en ?b true ?at_ ?l] =>
          destruct (resumed_raises s en b at_ l) as (e' & t & ->)
      end.
      cbn. split; [|discriminate]. eexists. by rewrite <- !app_assoc.
    + cbn. split; [|discriminate]. by exists [].
Qed.

Lemma append_nil_r (s : string) : s +:+ EmptyString = s.
Proof.
  induction s as [|c s IH]; [reflexivity|].
  change (String c s +:+ EmptyString) with (String c (s +:+ EmptyString)).
  by rewrite IH.
Qed.

(** *** read_with_query *)







Example select_accepted :
  leading_keyword_is_select "  select distinct turbine_id FROM sensor_readings" = true
  /\ startswith (upper (strip "  select distinct turbine_id FROM sensor_readings")) "SELECT"
     = true.
Proof. vm_compute. auto. Qed.

Example non_select_rejected :
  map leading_keyword_is_select
    [ "UPDATE sensor_readings SET value = 0"; "  insert into t values (1)";
      "DROP TABLE sensor_readings"; "WITH x AS (SELECT 1) SELECT * FROM x";
      "(SELECT 1)"; "SELEC"; EmptyString ]
  = [false; false; false; false; false; false; false].
Proof. vm_compute. reflexivity. Qed.

Example select_runs :
  read_with_query reader0 (fun _ _ => Return five_rows) env_ok
    "SELECT * FROM sensor_readings" None
  = {| result := Return five_rows;
       trace := [ Connect "file:/data/sensor_data.db?mode=ro";
                  Execute "SELECT * FROM sensor_readings"; Close ] |}.
Proof. reflexivity. Qed.


(** *** read_sensor_data *)

(** A read that connects at once gives what SQLite answers to the built
    statement, when that is a list of rows. *)
Lemma read_sensor_data_return self db env t w o limit offset rs :
  0 < max_retries (config self) -> connects_at_once env ->
  sqlite_select db (build_query t w o limit offset) = Return rs ->
  read_sensor_data self db env t w o limit offset
  = {| result := Return rs;
       trace := [Connect (connection_string self);
                 Execute (render (build_query t w o limit offset)); Close] |}.
Proof.
  intros Hmr Henv Hq. unfold read_sensor_data. rewrite Hq.
  by rewrite with_connection_return.
Qed.


(** C10.  [limit=0] and [offset=0] are treated as if the argument were
    omitted: the statement built is the same, it ends after its ORDER BY
    clause with neither LIMIT nor OFFSET, and the read is the same in every
    environment.  Hence a read with [limit=0] that connects returns every
    row SQLite gives for the table, where clause and ordering, and
    [offset=0] skips none of them. *)
Theorem read_sensor_data_zero_is_omitted self db env
    (t : string) (w o : option string) (limit offset : option Z) :
  build_query t w o (Some 0) offset = build_query t w o None offset
  /\ build_query t w o limit (Some 0) = build_query t w o limit None
  /\ read_sensor_data self db env t w o (Some 0) offset
     = read_sensor_data self db env t w o None offset
  /\ read_sensor_data self db env t w o limit (Some 0)
     = read_sensor_data self db env t w o limit None
  /\ render (build_query t w o (Some 0) (Some 0))
     = "SELECT * FROM " +:+ t
       +:+ (if truthy_str w then " WHERE " +:+ default EmptyString w else EmptyString)
       +:+ " ORDER BY "
       +:+ (if truthy_str o then default EmptyString o else "timestamp DESC")
  /\ (0 < max_retries (config self) -> connects_at_once env ->
      forall rs,
        select_ordered db t (if truthy_str w then w else None)
          (if truthy_str o then default EmptyString o else "timestamp DESC")
        = Return rs ->
        result (read_sensor_data self db env t w o (Some 0) None) = Return rs
        /\ result (read_sensor_data self db env t w o None (Some 0)) = Return rs
        /\ result (read_sensor_data self db env t w o (Some 0) (Some 0)) = Return rs
        /\ result (read_sensor_data self db env t w o None None) = Return rs).
Proof.
  assert (forall off, build_query t w o (Some 0) off = build_query t w o None off) as HL
    by reflexivity.
  assert (forall lim, build_query t w o lim (Some 0) = build_query t w o lim None) as HO
    by reflexivity.
  split; [apply HL|]. split; [apply HO|].
  split; [unfold read_sensor_data; by rewrite HL|].
  split; [unfold read_sensor_data; by rewrite HO|].
  split.
  - unfold render, build_query. cbn.
    destruct w as [w|], o as [o|]; cbn;
      try destruct (String.eqb w EmptyString); try destruct (String.eqb o EmptyString);
      cbn; by rewrite ?append_nil_r.
  - intros Hmr Henv rs Hrs.
    assert (sqlite_select db (build_query t w o None None) = Return rs) as Hq.
    { unfold sqlite_select, build_query. cbn. rewrite <- Hrs.
      f_equal. destruct o as [o|]; [|by cbn]. by destruct (truthy_str (Some o)). }
    unfold read_sensor_data. rewrite !HL, !HO, Hq.
    by rewrite with_connection_return.
Qed.

Example render_page :
  render (build_query "sensor_readings" None None (Some 2) (Some 4))
  = "SELECT * FROM sensor_readings ORDER BY timestamp DESC LIMIT 2 OFFSET 4".
Proof. vm_compute. reflexivity. Qed.

Example render_zero :
  render (build_query "sensor_readings" (Some "turbine_id = 'T001'")
            (Some "timestamp ASC") (Some 0) (Some 0))
  = "SELECT * FROM sensor_readings WHERE turbine_id = 'T001' ORDER BY timestamp ASC".
Proof. vm_compute. reflexivity. Qed.

(** A positive limit does limit. *)
Example read_limit_two :
  result (read_sensor_data reader0 db_five env_ok "sensor_readings" None None
            (Some 2) None) = Return (take 2 five_rows).
Proof. reflexivity. Qed.

Lemma read_sensor_data_zero_is_omitted_witness :
  0 < max_retries (config reader0)
  /\ connects_at_once env_ok
  /\ result (read_sensor_data reader0 db_five env_ok "sensor_readings" None None
               (Some 0) None) = Return five_rows.
Proof.
  split; [reflexivity|]. split; [reflexivity|].
  apply (read_sensor_data_zero_is_omitted reader0 db_five env_ok "sensor_readings"
           None None None None); reflexivity.
Defined.

(** *** stream_sensor_data *)

Section Stream.
Context (self : SensorDatabaseReader) (db : sensor_db).
Context (envs : nat -> nat -> option exn).
Context (t : string) (bs : Z) (w o : option string) (all : list record).
Hypothesis Hmr : 0 < max_retries (config self).
Hypothesis Hbs : 0 < bs.
Hypothesis Henvs : forall i, connects_at_once (envs i).
Hypothesis Hall :
  sqlite_select db (build_query t w o None None) = Return all.





End Stream.


(** With [batch_size = 0] the statement has no LIMIT, every read returns the
    whole table, and on a table with a row the generator never stops. *)
Lemma stream_zero_batch_size_runs_on self db (envs : nat -> nat -> option exn)
    (t : string) (w o : option string) (x : record) (all : list record) :
  0 < max_retries (config self) ->
  (forall i, connects_at_once (envs i)) ->
  sqlite_select db (build_query t w o None None) = Return (x :: all) ->
  forall fuel i,
    ending (stream_loop fuel self db envs t 0 w o i 0) = Running.
Proof.
  intros Hmr Henvs Hall. induction fuel as [|fuel IH]; intros i; [reflexivity|].
  cbn [stream_loop].
  rewrite (read_sensor_data_return self db (envs i) t w o (Some 0) (Some 0) (x :: all))
    by done.
  cbn. apply IH.
Qed.

Example stream_five_by_two :
  let s := stream_sensor_data 6 reader0 db_five (fun _ => env_ok)
             "sensor_readings" 2 None None in
  map (map (fun r : record => r !! "id")) (batches s)
  = [ [Some (VInt 5); Some (VInt 4)]; [Some (VInt 3); Some (VInt 2)]; [Some (VInt 1)] ]
  /\ ending s = StopIteration
  /\ executed (reads s)
     = [ "SELECT * FROM sensor_readings ORDER BY timestamp DESC LIMIT 2";
         "SELECT * FROM sensor_readings ORDER BY timestamp DESC LIMIT 2 OFFSET 2";
         "SELECT * FROM sensor_readings ORDER BY timestamp DESC LIMIT 2 OFFSET 4" ].
Proof. vm_compute. auto. Qed.


End ReaderFacts.

Section MetadataFacts.
Import Metadata.

Lemma ascii_compare_N (a b : ascii) :
  Ascii.compare a b = (N_of_ascii a ?= N_of_ascii b)%N.
Proof. reflexivity. Qed.

Lemma string_compare_trans (s1 : string) : forall s2 s3,
  String.compare s1 s2 <> Gt -> String.compare s2 s3 <> Gt ->
  String.compare s1 s3 <> Gt.
Proof.
  induction s1 as [|c1 s1 IH]; intros [|c2 s2] [|c3 s3]; cbn; try done.
  rewrite !ascii_compare_N.
  destruct (N.compare_spec (N_of_ascii c1) (N_of_ascii c2)) as [E12|L12|G12];
    destruct (N.compare_spec (N_of_ascii c2) (N_of_ascii c3)) as [E23|L23|G23];
    destruct (N.compare_spec (N_of_ascii c1) (N_of_ascii c3)) as [E13|L13|G13];
    try done; try lia.
  apply IH.
Qed.

Lemma leb_compare (s1 s2 : string) :
  String.leb s1 s2 = true <-> String.compare s1 s2 <> Gt.
Proof. unfold String.leb. by destruct (String.compare s1 s2). Qed.

#[local] Instance str_le_trans : Transitive str_le.
Proof.
  intros s1 s2 s3. unfold str_le. rewrite !leb_compare.
  apply string_compare_trans.
Qed.

#[local] Instance str_le_antisym : AntiSymm eq str_le.
Proof. intros s1 s2. apply String.leb_antisym. Qed.

#[local] Instance str_le_total : Total str_le.
Proof. intros s1 s2. apply String.leb_total. Qed.

(** The sorted list of keys is determined by the set of keys. *)
Lemma sorted_keys_dom (c1 c2 : gmap string value) :
  dom c1 = dom c2 -> sorted_keys c1 = sorted_keys c2.
Proof.
  intros Hdom. unfold sorted_keys.
  apply (Sorted_unique str_le); try apply Sorted_merge_sort; try apply _.
  rewrite !merge_sort_Permutation.
  apply NoDup_Permutation; try apply NoDup_fst_map_to_list.
  intros k. rewrite !list_elem_of_fmap.
  assert (forall c : gmap string value,
            (exists y : string * value, k = y.1 /\ y ∈ map_to_list c) <-> k ∈ dom c) as H.
  { intros c. rewrite elem_of_dom. split.
    - intros ([k' v] & -> & Hin). apply elem_of_map_to_list in Hin. by exists v.
    - intros [v Hv]. exists (k, v). split; [done|]. by apply elem_of_map_to_list. }
  by rewrite !H, Hdom.
Qed.

(** C7.  The transformation hash depends on the phase, the pipeline
    version and the set of configuration keys only: for the same phase and
    the same version, two configurations with the same keys have the same
    hash, whatever their values. *)
Theorem transformation_hash_ignores_values
    (json_string sha256_hexdigest : string -> string)
    (environ1 environ2 : gmap string string) (pipeline_type : string)
    (c1 c2 : gmap string value) :
  get_pipeline_version environ1 = get_pipeline_version environ2 ->
  dom c1 = dom c2 ->
  generate_transformation_hash json_string sha256_hexdigest environ1 pipeline_type c1
  = generate_transformation_hash json_string sha256_hexdigest environ2 pipeline_type c2.
Proof.
  intros Hver Hdom. unfold generate_transformation_hash.
  by rewrite (sorted_keys_dom c1 c2 Hdom), Hver.
Qed.

(** The text that is hashed, with a [json_string] that only adds the quotes
    and the identity for the digest. *)
Example hash_input_text :
  generate_transformation_hash (fun s => dquote +:+ s +:+ dquote) (fun s => s)
    ∅ "validated" config_one
  = "{" +:+ dquote +:+ "config_keys" +:+ dquote +:+ ": ["
        +:+ dquote +:+ "api_key" +:+ dquote +:+ ", "
        +:+ dquote +:+ "schema_url" +:+ dquote +:+ "], "
        +:+ dquote +:+ "pipeline_type" +:+ dquote +:+ ": "
        +:+ dquote +:+ "validated" +:+ dquote +:+ ", "
        +:+ dquote +:+ "version" +:+ dquote +:+ ": "
        +:+ dquote +:+ "0.9.0" +:+ dquote +:+ "}".
Proof. vm_compute. reflexivity. Qed.

Lemma transformation_hash_ignores_values_witness :
  dom config_one = dom config_two
  /\ generate_transformation_hash (fun s => s) (fun s => s) ∅ "validated" config_one
     = generate_transformation_hash (fun s => s) (fun s => s) ∅ "validated" config_two.
Proof.
  assert (dom config_one = dom config_two) as H.
  { unfold config_one, config_two. rewrite !dom_insert_L, dom_empty_L. set_solver. }
  split; [exact H|].
  apply (transformation_hash_ignores_values (fun s => s) (fun s => s) ∅ ∅
           "validated" config_one config_two eq_refl H).
Defined.

End MetadataFacts.

Section RouterFacts.
Import Router.

Implicit Types (py : builtins) (r : record) (data : list record).

(** *** Phases that pass records through *)

Lemma split_loop_pass_through py (pt : string) data :
  pt <> "schematized" -> pt <> "validated" ->
  forall valid invalid,
    split_loop py pt data valid invalid = Return (valid ++ data, invalid).
Proof.
  intros Hs Hv. induction data as [|r data IH]; intros valid invalid.
  - cbn. by rewrite app_nil_r.
  - cbn [split_loop].
    destruct (String.eqb_spec pt "schematized"); [done|].
    destruct (String.eqb_spec pt "validated"); [done|].
    repeat case_match; rewrite IH; by rewrite <- app_assoc.
Qed.

(** C4.  In the phases raw, aggregated and anomaly, and in every phase
    whose name the router does not know, the valid list is the input batch,
    record for record and in order, and the invalid list is empty. *)
Theorem pass_through_phases_keep_batch py (pt : string) data :
  pt = "raw" \/ pt = "aggregated" \/ pt = "anomaly"
  \/ pt ∉ ["raw"; "schematized"; "validated"; "aggregated"; "anomaly"] ->
  _validate_and_split_data py pt data = Return (data, []).
Proof.
  intros H. unfold _validate_and_split_data.
  apply split_loop_pass_through.
  - destruct H as [->|[->|[->|H]]]; try discriminate.
    intros ->. apply H. set_solver.
  - destruct H as [->|[->|[->|H]]]; try discriminate.
    intros ->. apply H. set_solver.
Qed.

Example unknown_phase_passes_through :
  _validate_and_split_data py0 "unknown_type" sample_data = Return (sample_data, []).
Proof. reflexivity. Qed.

Lemma pass_through_phases_keep_batch_witness :
  ("raw" = "raw" \/ "raw" = "aggregated" \/ "raw" = "anomaly"
   \/ "raw" ∉ ["raw"; "schematized"; "validated"; "aggregated"; "anomaly"])
  /\ _validate_and_split_data py0 "raw" sample_data = Return (sample_data, []).
Proof.
  split; [by left|].
  apply (pass_through_phases_keep_batch py0 "raw" sample_data). by left.
Defined.

(** *** The validated phase *)

Lemma SFcompare_antisym (x y : spec_float) (c : comparison) :
  SFcompare x y = Some c -> SFcompare y x = Some (CompOpp c).
Proof.
  destruct x as [sx|sx| |sx mx ex], y as [sy|sy| |sy my ey]; cbn;
    intros [= <-]; try (by destruct sx); try (by destruct sy);
    try (by destruct sx, sy).
  rewrite (Z.compare_antisym ex ey), (ZC4 my mx).
  by destruct sx, sy, (ex ?= ey), (Pos.compare_cont Eq mx my).
Qed.

Lemma SFcompare_some (x y : spec_float) :
  is_nan x = false -> is_nan y = false -> exists c, SFcompare x y = Some c.
Proof. destruct x, y; cbn; try discriminate; eauto. Qed.

(** Off NaN, not below is at least. *)
Lemma negb_SFltb (x y : spec_float) :
  is_nan x = false -> is_nan y = false -> negb (SFltb x y) = SFleb y x.
Proof.
  intros Hx Hy. destruct (SFcompare_some x y Hx Hy) as [c Hc].
  unfold SFltb, SFleb. rewrite Hc, (SFcompare_antisym x y c Hc). by destruct c.
Qed.

Lemma passes_ranges (t h : spec_float) :
  is_nan t = false -> is_nan h = false ->
  passes t h = in_closed_range (-20) 60 t && in_closed_range 0 100 h.
Proof.
  intros Ht Hh. unfold passes, in_closed_range, lt_int, gt_int.
  rewrite !negb_orb, !negb_SFltb by done. reflexivity.
Qed.

Lemma transform_temperature py pt r :
  _mock_transform_to_turbine_schema py pt r !! "temperature"
  = Some (get r "temperature").
Proof. unfold _mock_transform_to_turbine_schema. by simplify_map_eq. Qed.

Lemma transform_humidity py pt r :
  _mock_transform_to_turbine_schema py pt r !! "humidity"
  = Some (get r "humidity").
Proof. unfold _mock_transform_to_turbine_schema. by simplify_map_eq. Qed.

Lemma validate_transformed py pt r :
  _mock_validate_record py (_mock_transform_to_turbine_schema py pt r)
  = bind (coerced py r "temperature") (fun t =>
    bind (coerced py r "humidity") (fun h => Return (passes t h))).
Proof.
  unfold _mock_validate_record, get_or, coerced.
  rewrite transform_temperature, transform_humidity. cbn [default from_option id].
  destruct (coerce py (get r "temperature")) as [t|e]; [|done].
  destruct (coerce py (get r "humidity")) as [h|e]; [|done].
  cbn. unfold passes. by repeat case_match.
Qed.

Lemma validate_numbers py pt r :
  numbers py r ->
  _mock_validate_record py (_mock_transform_to_turbine_schema py pt r)
  = Return (within_ranges py r).
Proof.
  intros (t & h & Ht & Hh & Nt & Nh). rewrite validate_transformed.
  unfold within_ranges. rewrite Ht, Hh. cbn. by rewrite passes_ranges.
Qed.

Lemma split_loop_validated py data :
  Forall (numbers py) data ->
  forall valid invalid,
    split_loop py "validated" data valid invalid
    = Return
        (valid ++ map (_mock_transform_to_turbine_schema py "validated")
                      (List.filter (within_ranges py) data),
         invalid ++ map (_mock_transform_to_turbine_schema py "validated")
                        (List.filter (fun r => negb (within_ranges py r)) data)).
Proof.
  induction 1 as [|r data Hr Hdata IH]; intros valid invalid.
  - cbn. by rewrite !app_nil_r.
  - cbn [split_loop String.eqb Ascii.eqb Bool.eqb]. cbn [List.filter].
    rewrite (validate_numbers py "validated" r Hr). cbn [bind].
    destruct (within_ranges py r); cbn [negb map]; rewrite IH;
      by rewrite <- app_assoc.
Qed.

(** Whether a record is within the ranges can be read off its transform. *)
Lemma within_ranges_transform py pt r1 r2 :
  _mock_transform_to_turbine_schema py pt r1
  = _mock_transform_to_turbine_schema py pt r2 ->
  within_ranges py r1 = within_ranges py r2.
Proof.
  intros H. unfold within_ranges, coerced.
  assert (get r1 "temperature" = get r2 "temperature") as ->.
  { apply (f_equal (fun m : record => m !! "temperature")) in H.
    rewrite !transform_temperature in H. congruence. }
  assert (get r1 "humidity" = get r2 "humidity") as ->.
  { apply (f_equal (fun m : record => m !! "humidity")) in H.
    rewrite !transform_humidity in H. congruence. }
  reflexivity.
Qed.

Lemma coerced_missing py r key :
  r !! key = None \/ r !! key = Some VNone ->
  coerced py r key = Return (S754_zero false).
Proof. unfold coerced, get. by intros [->| ->]. Qed.

Lemma coerce_raises py (v : value) (e : exn) :
  coerce py v = Raise e ->
  exists z msg, v = VInt z /\ e = OverflowError msg
                /\ exists s, float_of_Z z = S754_infinity s.
Proof.
  destruct v as [|b|z|f|s|l|d]; cbn; try discriminate.
  - destruct (float_of_Z z) as [?|s'| |? ? ?] eqn:E; try discriminate.
    intros [= <-]. eauto 6.
  - destruct (float_of_str py s); discriminate.
Qed.

Lemma accepted_numbers py r : numbers py r -> accepted py r = within_ranges py r.
Proof.
  intros (t & h & Ht & Hh & Nt & Nh). unfold accepted, within_ranges.
  rewrite Ht, Hh. by apply passes_ranges.
Qed.

(** The answer of the validator can be read off the transform. *)
Lemma accepted_transform py pt r1 r2 :
  _mock_transform_to_turbine_schema py pt r1
  = _mock_transform_to_turbine_schema py pt r2 ->
  accepted py r1 = accepted py r2.
Proof.
  intros H. unfold accepted, coerced.
  assert (get r1 "temperature" = get r2 "temperature") as ->.
  { apply (f_equal (fun m : record => m !! "temperature")) in H.
    rewrite !transform_temperature in H. congruence. }
  assert (get r1 "humidity" = get r2 "humidity") as ->.
  { apply (f_equal (fun m : record => m !! "humidity")) in H.
    rewrite !transform_humidity in H. congruence. }
  reflexivity.
Qed.

(** A run of the loop that returns: every record converted, and the lists
    are the transforms of the accepted and of the other records. *)
Lemma split_loop_validated_return py data :
  forall valid0 invalid0 valid invalid,
    split_loop py "validated" data valid0 invalid0 = Return (valid, invalid) ->
    Forall (converts py) data
    /\ valid = valid0 ++ map (_mock_transform_to_turbine_schema py "validated")
                             (List.filter (accepted py) data)
    /\ invalid = invalid0 ++ map (_mock_transform_to_turbine_schema py "validated")
                                 (List.filter (fun r => negb (accepted py r)) data).
Proof.
  induction data as [|r data IH]; intros valid0 invalid0 valid invalid.
  - cbn. intros [= <- <-]. by rewrite !app_nil_r.
  - cbn [split_loop String.eqb Ascii.eqb Bool.eqb]. cbn [List.filter].
    rewrite validate_transformed.
    destruct (coerced py r "temperature") as [t|e] eqn:Ht; [|discriminate].
    destruct (coerced py r "humidity") as [h|e] eqn:Hh; [|discriminate].
    assert (accepted py r = passes t h) as ->
      by (unfold accepted; by rewrite Ht, Hh).
    cbn [bind].
    destruct (passes t h); cbn [negb map]; intros H;
      apply IH in H as (Hc & -> & ->); rewrite <- !app_assoc;
      (split; [constructor; [by exists t, h | exact Hc] | done]).
Qed.

(** A run of the loop that raises: the exception is the one [float] raised
    on a field of a record of the batch. *)
Lemma split_loop_validated_raise py data :
  forall valid0 invalid0 e,
    split_loop py "validated" data valid0 invalid0 = Raise e ->
    exists r key, r ∈ data /\ (key = "temperature" \/ key = "humidity")
                  /\ coerced py r key = Raise e.
Proof.
  induction data as [|r data IH]; intros valid0 invalid0 e; [discriminate|].
  cbn [split_loop String.eqb Ascii.eqb Bool.eqb].
  rewrite validate_transformed.
  destruct (coerced py r "temperature") as [t|e'] eqn:Ht.
  - destruct (coerced py r "humidity") as [h|e'] eqn:Hh.
    + cbn [bind]. destruct (passes t h); intros H;
        apply IH in H as (r' & key & Hin & Hkey & Hr');
        exists r', key; (split; [by right | done]).
    + cbn [bind]. intros [= <-]. exists r, "humidity".
      split; [by left|]. split; [by right | exact Hh].
  - cbn [bind]. intros [= <-]. exists r, "temperature".
    split; [by left|]. split; [by left | exact Ht].
Qed.

Lemma split_loop_validated_converts py data :
  Forall (converts py) data ->
  forall valid0 invalid0,
    exists valid invalid,
      split_loop py "validated" data valid0 invalid0 = Return (valid, invalid).
Proof.
  induction 1 as [|r data (t & h & Ht & Hh) Hdata IH]; intros valid0 invalid0.
  - by eexists _, _.
  - cbn [split_loop String.eqb Ascii.eqb Bool.eqb].
    rewrite validate_transformed, Ht, Hh. cbn [bind].
    destruct (passes t h); apply IH.
Qed.

(** C2, as the code has it.  In the validated phase with the default
    validator: (1) whenever the router returns the two lists for a batch,
    they are the transforms, in input order, of the records the check of
    the code accepts and of the others, and for every record of the batch
    whose temperature and humidity coerce to a number (no NaN) the transform
    is in the valid list exactly when the coerced temperature lies in
    [-20, 60] and the coerced humidity in [0, 100], bounds included, and in
    the invalid list exactly when not; (2) the router returns exactly when
    the two fields of every record convert; (3) when it raises, the
    exception is the OverflowError of [float] on an int too large for a
    float, held by a record of the batch as temperature or humidity; (4) on
    a batch in which the two fields of every record coerce to a number the
    router returns, and the lists are those of the ranges.  A missing
    field, None, a str that [float] does not parse, a list and a dict coerce
    to 0.0, so that a record without either field is valid. *)
Theorem validated_phase_splits_by_ranges py data :
  let tr := _mock_transform_to_turbine_schema py "validated" in
  (forall valid invalid,
     _validate_and_split_data py "validated" data = Return (valid, invalid) ->
     valid = map tr (List.filter (accepted py) data)
     /\ invalid = map tr (List.filter (fun r => negb (accepted py r)) data)
     /\ (forall r, r ∈ data -> numbers py r ->
           (tr r ∈ valid <-> within_ranges py r = true)
           /\ (tr r ∈ invalid <-> within_ranges py r = false)))
  /\ ((exists valid invalid,
         _validate_and_split_data py "validated" data = Return (valid, invalid))
      <-> Forall (converts py) data)
  /\ (forall e,
        _validate_and_split_data py "validated" data = Raise e ->
        exists r key z msg s,
          r ∈ data /\ (key = "temperature" \/ key = "humidity")
          /\ r !! key = Some (VInt z) /\ float_of_Z z = S754_infinity s
          /\ e = OverflowError msg)
  /\ (Forall (numbers py) data ->
        _validate_and_split_data py "validated" data
        = Return (map tr (List.filter (within_ranges py) data),
                  map tr (List.filter (fun r => negb (within_ranges py r)) data)))
  /\ (forall r key, r !! key = None \/ r !! key = Some VNone ->
        coerced py r key = Return (S754_zero false))
  /\ (forall r key s, r !! key = Some (VStr s) -> float_of_str py s = None ->
        coerced py r key = Return (S754_zero false))
  /\ (forall r key l, r !! key = Some (VList l) ->
        coerced py r key = Return (S754_zero false))
  /\ (forall r key d, r !! key = Some (VDict d) ->
        coerced py r key = Return (S754_zero false))
  /\ numbers py ∅ /\ within_ranges py ∅ = true.
Proof.
  intros tr.
  split.
  { intros valid invalid H.
    apply split_loop_validated_return in H as (_ & -> & ->). cbn [app].
    split; [done|]. split; [done|].
    intros r Hr Hn. rewrite <- (accepted_numbers py r Hn). split.
    - rewrite list_elem_of_In, in_map_iff. split.
      + intros (r' & Heq & Hin). apply filter_In in Hin as [_ Hin].
        by rewrite <- (accepted_transform py "validated" r' r Heq).
      + intros Hw. exists r. split; [done|]. apply filter_In.
        split; [by apply list_elem_of_In | done].
    - rewrite list_elem_of_In, in_map_iff. split.
      + intros (r' & Heq & Hin). apply filter_In in Hin as [_ Hin].
        rewrite <- (accepted_transform py "validated" r' r Heq).
        by apply negb_true_iff.
      + intros Hw. exists r. split; [done|]. apply filter_In.
        split; [by apply list_elem_of_In | by rewrite Hw]. }
  split.
  { split.
    - intros (valid & invalid & H).
      by apply split_loop_validated_return in H as (Hc & _).
    - intros Hc. apply (split_loop_validated_converts py data Hc [] []). }
  split.
  { intros e H.
    apply split_loop_validated_raise in H as (r & key & Hin & Hkey & Hr).
    apply coerce_raises in Hr as (z & msg & Hv & -> & s & Hs).
    exists r, key, z, msg, s. split; [done|]. split; [done|].
    split; [|done]. unfold get in Hv.
    destruct (r !! key) as [v|]; cbn in Hv; [by subst | discriminate]. }
  split; [intros Hdata; apply (split_loop_validated py data Hdata [] [])|].
  split; [apply coerced_missing|].
  split; [intros r key s Hk Hs; unfold coerced, get; rewrite Hk; cbn; by rewrite Hs|].
  split; [intros r key l Hk; unfold coerced, get; by rewrite Hk|].
  split; [intros r key d Hk; unfold coerced, get; by rewrite Hk|].
  split; [by exists (S754_zero false), (S754_zero false)|reflexivity].
Qed.

(** The test [test_validated_phase_logic]: one valid record, two invalid. *)
Example sample_validated :
  match _validate_and_split_data py0 "validated" sample_data with
  | Return (valid, invalid) =>
      map (fun r : record => r !! "turbine_id") valid = [Some (VStr "turbine_1")]
      /\ map (fun r : record => r !! "turbine_id") invalid
         = [Some (VStr "turbine_2"); Some (VStr "turbine_3")]
  | Raise _ => False
  end.
Proof. vm_compute. auto. Qed.

(** The bounds are included. *)
Example bounds_included :
  map (fun th => passes (float_of_Z th.1) (float_of_Z th.2))
    [(-20, 0); (60, 100); (-21, 0); (61, 0); (0, -1); (0, 101)]
  = [true; true; false; false; false; false].
Proof. vm_compute. reflexivity. Qed.

(** An int beyond the range of a float: the conversion raises, and the
    exception leaves [_validate_and_split_data]. *)
Example huge_int_raises :
  _validate_and_split_data py0 "validated" [<["temperature" := VInt (10 ^ 400)]> ∅]
  = Raise (OverflowError "int too large to convert to float").
Proof. vm_compute. reflexivity. Qed.

(** A batch with a NaN record before the records of the fixture: the
    router returns, the NaN record is in the valid list, and the records
    after it are split by the ranges. *)
Lemma validated_phase_splits_by_ranges_witness :
  let tr := _mock_transform_to_turbine_schema py0 "validated" in
  let data := nan_record :: sample_data in
  exists valid invalid,
    _validate_and_split_data py0 "validated" data = Return (valid, invalid)
    /\ tr nan_record ∈ valid
    /\ length valid = 2%nat /\ length invalid = 2%nat
    /\ (forall r, r ∈ data -> numbers py0 r ->
          (tr r ∈ valid <-> within_ranges py0 r = true)
          /\ (tr r ∈ invalid <-> within_ranges py0 r = false)).
Proof.
  intros tr data.
  destruct (_validate_and_split_data py0 "validated" data)
    as [[valid invalid]|e] eqn:E; [|by vm_compute in E].
  exists valid, invalid. split; [reflexivity|].
  destruct (proj1 (validated_phase_splits_by_ranges py0 data) valid invalid E)
    as (Hv & Hi & Hsplit).
  split; [rewrite Hv; by left|].
  split; [by rewrite Hv|]. split; [by rewrite Hi | exact Hsplit].
Defined.

(** C2 as stated fails: a record whose temperature is NaN is put in the
    valid list, and NaN does not lie in [-20, 60]. *)
Lemma validated_phase_nan_is_valid :
  ~ (forall py r valid invalid,
       _validate_and_split_data py "validated" [r] = Return (valid, invalid) ->
       (_mock_transform_to_turbine_schema py "validated" r ∈ valid
        <-> within_ranges py r = true)).
Proof.
  intros H.
  specialize (H py0 nan_record
                [_mock_transform_to_turbine_schema py0 "validated" nan_record] []).
  assert (within_ranges py0 nan_record = true) as Hw.
  { apply H; [by vm_compute | by left]. }
  by vm_compute in Hw.
Qed.

End RouterFacts.

Section ConstructionFacts.

(** C8, as the code has it.  The state store refuses, with a ValueError and
    before any file is opened, a path whose lower-cased text contains
    [sensor_data], and initialises the file at any other path.  The sensor
    reader makes no check of what its path refers to: it raises, a
    FileNotFoundError, exactly when the resolved path does not exist. *)
Theorem construction_path_checks :
  (forall now files path,
     contains "sensor_data" (lower path) = true ->
     exists msg, Controller.init now files (Some path) = (Raise (ValueError msg), []))
  /\ (forall now files path,
        contains "sensor_data" (lower path) = false ->
        Controller.init now files (Some path)
        = (Return (path, Controller._init_database now (files path)), [path]))
  /\ (forall fs path cfg,
        Reader.exists_ fs (Reader.resolve fs path) = false ->
        Reader.init fs path cfg
        = Raise (FileNotFoundError
                   ("Sensor database not found: " +:+ Reader.resolve fs path)))
  /\ (forall fs path cfg,
        Reader.exists_ fs (Reader.resolve fs path) = true ->
        exists reader, Reader.init fs path cfg = Return reader
                       /\ Reader.db_path reader = Reader.resolve fs path).
Proof.
  split; [|split; [|split]].
  - intros now files path H. unfold Controller.init. rewrite H. eauto.
  - intros now files path H. unfold Controller.init. by rewrite H.
  - intros fs path cfg H. unfold Reader.init. by rewrite H.
  - intros fs path cfg H. unfold Reader.init. rewrite H. cbn. eauto.
Qed.

Lemma construction_path_checks_witness :
  contains "sensor_data" (lower "/data/Sensor_Data.db") = true
  /\ exists msg,
       Controller.init "2024-01-15 10:30:00" (fun _ => Controller.fresh_db)
         (Some "/data/Sensor_Data.db")
       = (Raise (ValueError msg), []).
Proof.
  split; [reflexivity|].
  apply (proj1 construction_path_checks); reflexivity.
Defined.

(** C8 as stated fails in its second half: the sensor reader accepts the
    path of the state database. *)
Lemma reader_accepts_state_database_path :
  ~ (forall fs path cfg,
       contains "pipeline_config" (lower path) = true ->
       exists e, Reader.init fs path cfg = Raise e).
Proof.
  intros H. destruct (H Reader.fs_all "pipeline_config.db" None) as [e He];
    [reflexivity | discriminate He].
Qed.

End ConstructionFacts.

(** * Further properties *)

Section ControllerMore.
Import Controller.

Implicit Types (rs : list config_row) (log : list event) (f : fault).
Implicit Types (p : PipelineType) (b r : option string).

(** *** _init_database *)

Lemma written_once_deactivate (row : config_row) :
  written_once (deactivate row) = written_once row.
Proof. unfold deactivate. by destruct (active row). Qed.

(** X1.  [_init_database] can be run again at any time: a second run changes
    nothing.  On a file with the current columns and an active row it changes
    nothing at all, and in every case the rows of the file are kept, in
    order, in all the columns written at insertion; at most one row is
    added. *)
Theorem init_database_idempotent (now1 now2 : string) (db : config_db) :
  _init_database now2 (_init_database now1 db) = _init_database now1 db
  /\ (has_is_active db = true -> count_active (rows db) <> 0%nat ->
      _init_database now1 db = db)
  /\ map written_once (rows db)
     `prefix_of` map written_once (rows (_init_database now1 db))
  /\ (length (rows (_init_database now1 db)) <= S (length (rows db)))%nat.
Proof.
  split; [|split; [|split]].
  - pose proof (init_has_active now1 db) as H.
    assert (has_is_active (_init_database now1 db) = true) as Hc by reflexivity.
    destruct (_init_database now1 db) as [h rs]. cbn [rows has_is_active] in H, Hc. subst h.
    unfold _init_database. cbn [has_is_active rows].
    destruct (Nat.eqb_spec (count_active rs) 0) as [E|E]; [lia | reflexivity].
  - intros Hc Hn. destruct db as [h rs]. cbn [rows has_is_active] in Hc, Hn. subst h.
    unfold _init_database. cbn [has_is_active rows].
    destruct (Nat.eqb_spec (count_active rs) 0) as [E|E]; [lia | reflexivity].
  - unfold _init_database. cbn [rows].
    assert (map written_once
              (if has_is_active db then rows db else map add_is_active (rows db))
            = map written_once (rows db)) as Hw.
    { destruct (has_is_active db); [reflexivity|].
      rewrite map_map. by apply map_ext. }
    destruct (count_active _ =? 0)%nat.
    + unfold insert_config. rewrite map_app, Hw. by apply prefix_app_r.
    + by rewrite Hw.
  - unfold _init_database. cbn [rows].
    assert (length (if has_is_active db then rows db else map add_is_active (rows db))
            = length (rows db)) as Hl
      by (destruct (has_is_active db); [reflexivity | apply length_map]).
    destruct (count_active _ =? 0)%nat.
    + unfold insert_config. rewrite length_app, Hl. cbn. lia.
    + rewrite Hl. lia.
Qed.

Lemma init_database_idempotent_witness :
  has_is_active (_init_database "2024-01-15 10:00:00" fresh_db) = true
  /\ count_active (rows (_init_database "2024-01-15 10:00:00" fresh_db)) <> 0%nat
  /\ _init_database "2024-02-01 08:00:00" (_init_database "2024-01-15 10:00:00" fresh_db)
     = _init_database "2024-01-15 10:00:00" fresh_db.
Proof.
  split; [reflexivity|]. split; [by vm_compute|].
  apply (init_database_idempotent "2024-02-01 08:00:00" "2024-02-01 08:00:00"
           (_init_database "2024-01-15 10:00:00" fresh_db));
    [reflexivity | by vm_compute].
Defined.

(** *** set_pipeline *)

Lemma next_id_fresh rs (row : config_row) : row ∈ rs -> id row < next_id rs.
Proof.
  unfold next_id. induction 1 as [row rs|row row' rs _ IH]; cbn [map fold_right]; lia.
Qed.

Lemma set_pipeline_true clock env p b r rs :
  result (set_pipeline clock env p b r rs) = Return true ->
  exists k, (k < 5)%nat
            /\ final (set_pipeline clock env p b r rs) = switched (clock k) p b r rs.
Proof.
  unfold set_pipeline, max_retries.
  destruct (set_loop_cases clock env p b r 5 0 rs []) as [(k & Hk & _ & Hf)|(e & -> & _)];
    [lia | lia | | discriminate].
  intros _. exists k. split; [lia | exact Hf].
Qed.

(** X2.  A [set_pipeline] that returns [True] keeps the history: every row
    that was there is still there, in order, unchanged in all the columns
    written at insertion (only [is_active] is cleared), and one row is added
    at the end.  The new row has the type, the author (or "unknown") and the
    reason of the call, is active, and has an id larger than every id in use,
    so that ids that were distinct stay distinct. *)
Theorem set_pipeline_appends_to_history (clock : nat -> string) (env : nat -> fault)
    p b r rs :
  result (set_pipeline clock env p b r rs) = Return true ->
  exists k new,
    (k < 5)%nat
    /\ final (set_pipeline clock env p b r rs) = map deactivate rs ++ [new]
    /\ map written_once (map deactivate rs) = map written_once rs
    /\ new = {| id := next_id rs; pipeline_type := PipelineType_value p;
                created_at := clock k; created_by := Some (or_unknown b);
                reason := r; is_active := Some 1 |}
    /\ (forall row, row ∈ rs -> id row < id new)
    /\ (NoDup (map id rs) ->
        NoDup (map id (final (set_pipeline clock env p b r rs)))).
Proof.
  intros Hres. destruct (set_pipeline_true clock env p b r rs Hres) as (k & Hk & Hf).
  assert (map written_once (map deactivate rs) = map written_once rs) as Hw.
  { rewrite map_map. apply map_ext. intros row. apply written_once_deactivate. }
  assert (map id (map deactivate rs) = map id rs) as Hid.
  { rewrite map_map. apply map_ext. intros row. unfold deactivate.
    by destruct (active row). }
  assert (next_id (update_deactivate rs) = next_id rs) as Hn.
  { unfold next_id, update_deactivate. by rewrite Hid. }
  eexists k, _. split; [exact Hk|]. rewrite Hf, switched_eq.
  unfold insert_config. rewrite Hn. fold (update_deactivate rs).
  split; [reflexivity|]. split; [exact Hw|]. split; [reflexivity|].
  split; [intros row Hrow; by apply next_id_fresh|].
  intros Hnd. unfold update_deactivate. rewrite map_app, Hid. cbn.
  apply NoDup_app. split; [exact Hnd|]. split; [|apply NoDup_singleton].
  intros x Hx Hx'. apply list_elem_of_singleton in Hx'. subst x.
  apply list_elem_of_fmap in Hx as (row & Hrow & Hin).
  apply next_id_fresh in Hin. lia.
Qed.

Lemma set_pipeline_appends_to_history_witness :
  result (set_pipeline clock0 env_locked_twice VALIDATED (Some "user1") None
            (rows (_init_database "2024-01-15 10:00:00" fresh_db))) = Return true
  /\ exists k new,
       (k < 5)%nat
       /\ final (set_pipeline clock0 env_locked_twice VALIDATED (Some "user1") None
                   (rows (_init_database "2024-01-15 10:00:00" fresh_db)))
          = map deactivate (rows (_init_database "2024-01-15 10:00:00" fresh_db)) ++ [new]
       /\ id new = 2.
Proof.
  assert (result (set_pipeline clock0 env_locked_twice VALIDATED (Some "user1") None
            (rows (_init_database "2024-01-15 10:00:00" fresh_db))) = Return true) as H
    by reflexivity.
  split; [exact H|].
  destruct (set_pipeline_appends_to_history clock0 env_locked_twice VALIDATED
              (Some "user1") None _ H) as (k & new & Hk & Hf & _ & Hnew & _).
  exists k, new. split; [exact Hk|]. split; [exact Hf|]. by rewrite Hnew.
Defined.

(** *** get_current_pipeline after set_pipeline *)

Lemma select_current_last rs (new : config_row) :
  count_active rs = 0%nat -> active new = true ->
  select_current (rs ++ [new]) = Some new.
Proof.
  intros Hrs Hnew. unfold select_current. rewrite fold_right_app. cbn [fold_right].
  unfold latest at 2. rewrite Hnew.
  revert Hrs. unfold count_active. induction rs as [|row rs IH]; [done|].
  destruct (active row) eqn:E.
  - rewrite filter_cons_True by done. discriminate.
  - rewrite filter_cons_False by (rewrite E; discriminate).
    intros H. cbn [fold_right]. unfold latest at 1. rewrite E. by apply IH.
Qed.

(** A read that meets no fault returns what [select_current] finds. *)
Lemma get_current_pipeline_clear now_iso (env : nat -> fault) rs (row : config_row) :
  raises_at (env 0%nat) 0 = None -> raises_at (env 0%nat) 1 = None ->
  select_current rs = Some row ->
  result (get_current_pipeline now_iso env rs) = Return (dict_of_row row).
Proof.
  intros H0 H1 Hsel. unfold get_current_pipeline, max_retries.
  cbn [seq get_current_pipeline_loop]. unfold with_connection.
  rewrite H0. cbn [run_stmts]. rewrite H1. cbn -[select_current]. by rewrite Hsel.
Qed.

(** X3.  What [set_pipeline] writes is what [get_current_pipeline] reads:
    after a call that returned [True], a read that meets no fault returns the
    type of the call, its author ("unknown" when none or empty was given),
    its reason, and the time of the attempt that committed, whatever rows
    were in the table before. *)
Theorem get_current_pipeline_after_set_pipeline (clock : nat -> string)
    (env env' : nat -> fault) p b r rs (now_iso : string) :
  result (set_pipeline clock env p b r rs) = Return true ->
  raises_at (env' 0%nat) 0 = None -> raises_at (env' 0%nat) 1 = None ->
  exists k, (k < 5)%nat
    /\ result (get_current_pipeline now_iso env'
                 (final (set_pipeline clock env p b r rs)))
       = Return {| cur_pipeline_type := PipelineType_value p;
                   cur_created_at := clock k;
                   cur_created_by := Some (or_unknown b);
                   cur_reason := r |}.
Proof.
  intros Hres H0 H1.
  destruct (set_pipeline_true clock env p b r rs Hres) as (k & Hk & ->).
  exists k. split; [exact Hk|].
  rewrite switched_eq. unfold insert_config.
  match goal with
  | |- context [update_deactivate rs ++ [?new]] =>
      rewrite (get_current_pipeline_clear now_iso env' _ new H0 H1);
        [reflexivity|];
      apply select_current_last; [apply count_active_deactivate | reflexivity]
  end.
Qed.

Lemma get_current_pipeline_after_set_pipeline_witness :
  result (set_pipeline clock0 env_locked_twice VALIDATED None (Some "audit")
            [ ]) = Return true
  /\ raises_at (env_clear 0%nat) 0 = None /\ raises_at (env_clear 0%nat) 1 = None
  /\ exists k, (k < 5)%nat
       /\ result (get_current_pipeline "2024-01-15T10:31:00" env_clear
                    (final (set_pipeline clock0 env_locked_twice VALIDATED None
                              (Some "audit") [])))
          = Return {| cur_pipeline_type := "validated";
                      cur_created_at := clock0 k;
                      cur_created_by := Some "unknown";
                      cur_reason := Some "audit" |}.
Proof.
  split; [reflexivity|]. split; [reflexivity|]. split; [reflexivity|].
  apply (get_current_pipeline_after_set_pipeline clock0 env_locked_twice env_clear
           VALIDATED None (Some "audit") [] "2024-01-15T10:31:00");
    reflexivity.
Defined.

(** *** The retry loop of get_current_pipeline *)

Lemma get_attempt_fault now rs log n e :
  (n < 2)%nat ->
  exists log',
    with_connection now (FaultAt n e) [SelectCurrent] rs log = (Raise e, rs, log')
    /\ sleeps log' = sleeps log
    /\ connects log' = S (connects log).
Proof.
  intros Hn. unfold with_connection.
  do 2 (destruct n as [|n];
        [cbn; eexists; split; [reflexivity|];
         rewrite ?sleeps_app, ?connects_app; cbn;
         rewrite ?app_nil_r; split; [reflexivity | lia]|]).
  lia.
Qed.

Lemma get_attempt_ok now f rs log :
  raises_at f 0 = None -> raises_at f 1 = None ->
  with_connection now f [SelectCurrent] rs log
  = (Return rs, rs, log ++ [Connect; Exec SelectCurrent]).
Proof.
  intros H0 H1. unfold with_connection. rewrite H0. cbn [run_stmts]. rewrite H1.
  cbn. by rewrite <- app_assoc.
Qed.

Lemma read_fault_cases f :
  (exists n e, (n < 2)%nat /\ f = FaultAt n e)
  \/ (raises_at f 0 = None /\ raises_at f 1 = None).
Proof.
  destruct f as [|m e]; [by right|].
  destruct m as [|[|m]];
    [left; eexists _, _; (split; [|reflexivity]); lia.. | by right].
Qed.

Lemma get_loop_prefix now_iso env k :
  forall a n rs log,
    (a + k <= 4)%nat -> (k <= n)%nat ->
    (forall i, (a <= i < a + k)%nat -> read_contended (env i)) ->
    exists log',
      get_current_pipeline_loop now_iso env (seq a n) rs log
      = get_current_pipeline_loop now_iso env (seq (a + k) (n - k)) rs log'
      /\ sleeps log' = sleeps log ++ map backoff (seq a k)
      /\ connects log' = (connects log + k)%nat.
Proof.
  induction k as [|k IH]; intros a n rs log Ha Hn Hlocked.
  - exists log. rewrite Nat.add_0_r, Nat.sub_0_r, app_nil_r. auto with lia.
  - destruct n as [|n]; [lia|].
    destruct (Hlocked a) as (j & e & Hj & Hf & He); [lia|].
    cbn [seq get_current_pipeline_loop]. rewrite Hf.
    destruct (get_attempt_fault now_iso rs log j e Hj) as (log1 & -> & Hs1 & Hc1).
    rewrite retryable_spec, He.
    replace (a <? 4)%nat with true by (symmetry; apply Nat.ltb_lt; lia).
    cbn [andb].
    destruct (IH (S a) n rs (log1 ++ [Sleep (backoff a)])) as (log' & -> & Hs & Hc);
      [lia | lia | intros i Hi; apply Hlocked; lia |].
    exists log'. replace (a + S k)%nat with (S a + k)%nat by lia.
    split; [reflexivity|]. split.
    + rewrite Hs, sleeps_app, Hs1. cbn. by rewrite <- app_assoc.
    + rewrite Hc, connects_app, Hc1. cbn. lia.
Qed.

Lemma get_loop_cases now_iso env n a rs log :
  (a + n = 5)%nat -> (0 < n)%nat ->
  let res := get_current_pipeline_loop now_iso env (seq a n) rs log in
  (exists c, result res = Return c)
  \/ (exists k j e, (k < 5)%nat /\ (j < 2)%nat /\ env k = FaultAt j e
                    /\ result res = Raise e).
Proof.
  revert a log. induction n as [|n IH]; intros a log Ha Hn; [lia|].
  cbn [seq get_current_pipeline_loop].
  destruct (read_fault_cases (env a)) as [(j & e & Hj & Hf)|[H0 H1]].
  - rewrite Hf.
    destruct (get_attempt_fault now_iso rs log j e Hj) as (log' & -> & _).
    destruct (retryable e a) eqn:Hre.
    + assert (a < 4)%nat as Ha4.
      { rewrite retryable_spec in Hre. apply andb_true_iff in Hre as [_ Hre].
        by apply Nat.ltb_lt in Hre. }
      apply IH; lia.
    + right. exists a, j, e. repeat split; [lia | done..].
  - rewrite (get_attempt_ok _ _ _ _ H0 H1). left. by eexists.
Qed.

(** X4.  The retry loop of [get_current_pipeline].  (1) When all five
    attempts meet lock contention, the call sleeps 0.1, 0.2, 0.4 and 0.8
    seconds between them and raises the lock error of the fifth.  (2) An
    error that is not lock contention is raised by the attempt that meets
    it, with no further attempt.  (3) An attempt without fault after [k]
    contended ones returns the current configuration.  (4) The call returns,
    or raises an exception that SQLite raised during one of its attempts:
    the RuntimeError after the loop is never raised. *)
Theorem get_current_pipeline_retry_policy (now_iso : string) (env : nat -> fault) rs :
  let res := get_current_pipeline now_iso env rs in
  ((forall i, (i < 5)%nat -> read_contended (env i)) ->
     exists n e, env 4%nat = FaultAt n e /\ lock_contention e = true
       /\ result res = Raise e
       /\ connects (trace res) = 5%nat
       /\ sleeps (trace res) = map backoff [0; 1; 2; 3]%nat)
  /\ (forall k n e,
        (k < 5)%nat -> (n < 2)%nat ->
        (forall i, (i < k)%nat -> read_contended (env i)) ->
        env k = FaultAt n e -> lock_contention e = false ->
        result res = Raise e
        /\ connects (trace res) = S k
        /\ sleeps (trace res) = map backoff (seq 0 k))
  /\ (forall k,
        (k < 5)%nat ->
        (forall i, (i < k)%nat -> read_contended (env i)) ->
        raises_at (env k) 0 = None -> raises_at (env k) 1 = None ->
        result res = Return (match select_current rs with
                             | Some row => dict_of_row row
                             | None => default_config now_iso
                             end)
        /\ connects (trace res) = S k
        /\ sleeps (trace res) = map backoff (seq 0 k))
  /\ ((exists c, result res = Return c)
      \/ (exists k j e, (k < 5)%nat /\ (j < 2)%nat /\ env k = FaultAt j e
                        /\ result res = Raise e)).
Proof.
  intros res.
  assert (forall k n e,
            (k < 5)%nat -> (n < 2)%nat ->
            (forall i, (i < k)%nat -> read_contended (env i)) ->
            env k = FaultAt n e -> retryable e k = false ->
            result res = Raise e
            /\ connects (trace res) = S k
            /\ sleeps (trace res) = map backoff (seq 0 k)) as Hraise.
  { intros k n e Hk Hn Hpre Hf Hre. subst res.
    unfold get_current_pipeline, max_retries.
    destruct (get_loop_prefix now_iso env k 0 5 rs []) as (log' & -> & Hs & Hc);
      [lia | lia | intros i Hi; apply Hpre; lia |].
    destruct (5 - k)%nat as [|m] eqn:Hm; [lia|].
    cbn [seq get_current_pipeline_loop Nat.add]. rewrite Hf.
    destruct (get_attempt_fault now_iso rs log' n e Hn) as (log1 & -> & Hs1 & Hc1).
    rewrite Hre. cbn [result trace]. rewrite Hs1, Hs, Hc1, Hc. auto. }
  split; [|split; [|split]].
  - intros Hall. destruct (Hall 4%nat) as (n & e & Hn & Hf & He); [lia|].
    exists n, e. split; [exact Hf|]. split; [exact He|].
    apply (Hraise 4%nat n e); auto with lia. by rewrite retryable_spec, He.
  - intros k n e Hk Hn Hpre Hf He. apply (Hraise k n e); auto.
    by rewrite retryable_spec, He.
  - intros k Hk Hpre H0 H1. subst res. unfold get_current_pipeline, max_retries.
    destruct (get_loop_prefix now_iso env k 0 5 rs []) as (log' & -> & Hs & Hc);
      [lia | lia | intros i Hi; apply Hpre; lia |].
    destruct (5 - k)%nat as [|m] eqn:Hm; [lia|].
    cbn [seq get_current_pipeline_loop Nat.add].
    rewrite (get_attempt_ok _ _ _ _ H0 H1). cbn [result trace].
    rewrite sleeps_app, connects_app, Hs, Hc. cbn -[select_current].
    rewrite app_nil_r. auto with lia.
  - apply (get_loop_cases now_iso env 5 0 rs []); lia.
Qed.

Lemma env_locked_read_contended i : read_contended (env_locked i).
Proof. exists 1%nat, (OperationalError "database is locked"). by repeat split; auto. Qed.

Lemma get_current_pipeline_retry_policy_witness :
  (forall i, (i < 5)%nat -> read_contended (env_locked i))
  /\ exists n e,
       env_locked 4 = FaultAt n e /\ lock_contention e = true
       /\ result (get_current_pipeline "2024-01-15T10:30:00" env_locked []) = Raise e
       /\ connects (trace (get_current_pipeline "2024-01-15T10:30:00" env_locked []))
          = 5%nat
       /\ sleeps (trace (get_current_pipeline "2024-01-15T10:30:00" env_locked []))
          = map backoff [0; 1; 2; 3]%nat.
Proof.
  split; [intros i _; apply env_locked_read_contended|].
  apply (get_current_pipeline_retry_policy "2024-01-15T10:30:00" env_locked []).
  intros i _. apply env_locked_read_contended.
Defined.

(** *** get_history *)



End ControllerMore.

Section ReaderMore.
Import Reader.

Implicit Types (self : SensorDatabaseReader) (db : sensor_db).
Implicit Types (env : nat -> option exn) (rs : list record).

Lemma rsleeps_app (t1 t2 : list event) : sleeps (t1 ++ t2) = sleeps t1 ++ sleeps t2.
Proof. apply omap_app. Qed.

Lemma rconnects_app (t1 t2 : list event) :
  connects (t1 ++ t2) = (connects t1 + connects t2)%nat.
Proof. unfold connects. by rewrite omap_app, length_app. Qed.

Lemma executed_map_Execute (stmts : list string) : executed (map Execute stmts) = stmts.
Proof. induction stmts as [|q stmts IH]; [done|]. cbn. by f_equal. Qed.

Lemma sleeps_map_Execute (stmts : list string) : sleeps (map Execute stmts) = [].
Proof. by induction stmts. Qed.

Lemma connects_map_Execute (stmts : list string) : connects (map Execute stmts) = 0%nat.
Proof. by induction stmts. Qed.

Lemma retry_delay_some (cfg : SensorReaderConfig) e attempt d :
  retry_delay cfg e attempt = Some d ->
  d = backoff cfg attempt /\ Z.of_nat attempt < max_retries cfg - 1.
Proof.
  unfold retry_delay. destruct e; try discriminate.
  destruct (busy msg); [|discriminate]. cbn [andb].
  destruct (Z.ltb_spec (Z.of_nat attempt) (max_retries cfg - 1)); [|discriminate].
  by intros [= <-].
Qed.

(** *** The retry loop of get_connection *)

Lemma conn_loop_prefix {A} self env (body : list string * outcome A)
    (resumed : bool) (k : nat) :
  forall a m log,
    (k <= m)%nat ->
    (forall i, (a <= i < a + k)%nat -> put_off self env i) ->
    exists log',
      get_connection_loop self env body resumed (seq a m) log
      = get_connection_loop self env body resumed (seq (a + k) (m - k)) log'
      /\ sleeps log' = sleeps log ++ map (backoff (config self)) (seq a k)
      /\ connects log' = (connects log + k)%nat
      /\ executed log' = executed log.
Proof.
  induction k as [|k IH]; intros a m log Hm Hoff.
  - exists log. rewrite Nat.add_0_r, Nat.sub_0_r, app_nil_r. auto with lia.
  - destruct m as [|m]; [lia|].
    destruct (Hoff a) as (e & d & He & Hd); [lia|].
    cbn [seq get_connection_loop]. rewrite He, Hd.
    apply retry_delay_some in Hd as [-> _].
    destruct (IH (S a) m
                ((log ++ [Connect (connection_string self)])
                   ++ [Sleep (backoff (config self) a)]))
      as (log' & -> & Hs & Hc & Hx);
      [lia | intros i Hi; apply Hoff; lia |].
    exists log'. replace (a + S k)%nat with (S a + k)%nat by lia.
    split; [reflexivity|]. split; [|split].
    + rewrite Hs, !rsleeps_app. cbn. by rewrite app_nil_r, <- app_assoc.
    + rewrite Hc, !rconnects_app. cbn. lia.
    + rewrite Hx, !executed_app. cbn. by rewrite !app_nil_r.
Qed.

(** X6.  The retry loop of [get_connection], for any [max_retries].
    (1) After [k] attempts put off, an exception of [sqlite3.connect] that
    is not put off (not busy or locked, or met at the last attempt) is
    raised as it is: [k + 1] attempts were made, the delays slept are
    [initial_retry_delay * 2**i] for [i < k], and no statement was executed.
    (2) After [k] attempts put off, a connection that succeeds runs the
    block once and returns what it returns.  (3) With [max_retries <= 0] no
    attempt is made and the call raises the OperationalError that follows
    the loop. *)
Theorem get_connection_retry_policy {A} self env (body : list string * outcome A) :
  let res := with_connection self env body in
  let n := Z.to_nat (max_retries (config self)) in
  (forall k e,
     (k < n)%nat ->
     (forall i, (i < k)%nat -> put_off self env i) ->
     env k = Some e -> retry_delay (config self) e k = None ->
     result res = Raise e
     /\ connects (trace res) = S k
     /\ sleeps (trace res) = map (backoff (config self)) (seq 0 k)
     /\ executed (trace res) = [])
  /\ (forall k a,
        (k < n)%nat ->
        (forall i, (i < k)%nat -> put_off self env i) ->
        env k = None -> body.2 = Return a ->
        result res = Return a
        /\ connects (trace res) = S k
        /\ sleeps (trace res) = map (backoff (config self)) (seq 0 k)
        /\ executed (trace res) = body.1)
  /\ (max_retries (config self) <= 0 ->
      trace res = []
      /\ result res
         = Raise (OperationalError
                    ("Failed to connect to sensor database after "
                     +:+ pretty (max_retries (config self)) +:+ " attempts: None"))).
Proof.
  intros res n. subst res. unfold with_connection. fold n.
  split; [|split].
  - intros k e Hk Hoff He Hd.
    destruct (conn_loop_prefix self env body false k 0 n [])
      as (log' & -> & Hs & Hc & Hx); [lia | intros i Hi; apply Hoff; lia |].
    destruct (n - k)%nat as [|m] eqn:Hm; [lia|].
    cbn [seq get_connection_loop Nat.add]. rewrite He, Hd. cbn [result trace].
    rewrite rsleeps_app, rconnects_app, executed_app, Hs, Hc, Hx. cbn.
    rewrite !app_nil_r. auto with lia.
  - intros k a Hk Hoff He Ha.
    destruct (conn_loop_prefix self env body false k 0 n [])
      as (log' & -> & Hs & Hc & Hx); [lia | intros i Hi; apply Hoff; lia |].
    destruct (n - k)%nat as [|m] eqn:Hm; [lia|].
    cbn [seq get_connection_loop Nat.add]. rewrite He, Ha. cbn [result trace].
    rewrite !rsleeps_app, !rconnects_app, !executed_app, Hs, Hc, Hx.
    rewrite sleeps_map_Execute, connects_map_Execute, executed_map_Execute. cbn.
    rewrite !app_nil_r. auto with lia.
  - intros Hmr. replace n with 0%nat by (subst n; lia). by cbn.
Qed.

Lemma get_connection_retry_policy_witness :
  ((2 < Z.to_nat (max_retries (config reader0)))%nat
   /\ (forall i, (i < 2)%nat -> put_off reader0 env_busy_twice i)
   /\ env_busy_twice 2 = None)
  /\ result (with_connection reader0 env_busy_twice
               (["SELECT 1"], Return five_rows)) = Return five_rows
  /\ connects (trace (with_connection reader0 env_busy_twice
                        (["SELECT 1"], Return five_rows))) = 3%nat
  /\ sleeps (trace (with_connection reader0 env_busy_twice
                      (["SELECT 1"], Return five_rows)))
     = [ S754_finite false 7205759403792794 (-56);
         S754_finite false 7205759403792794 (-55) ].
Proof.
  assert (forall i, (i < 2)%nat -> put_off reader0 env_busy_twice i) as Hoff.
  { intros i Hi. exists (OperationalError "database is locked"), (backoff default_config i).
    do 2 (destruct i as [|i]; [by vm_compute|]). lia. }
  split; [split; [cbn; lia | split; [exact Hoff | reflexivity]]|].
  destruct (proj1 (proj2 (get_connection_retry_policy reader0 env_busy_twice
                            (["SELECT 1"], Return five_rows)))
              2%nat five_rows) as (Hr & Hc & Hs & _);
    [cbn; lia | exact Hoff | reflexivity | reflexivity |].
  split; [exact Hr|]. split; [exact Hc|]. rewrite Hs. by vm_compute.
Defined.

(** *** Connections are released *)

Lemma run_trace_app (s : conn_state) (t1 t2 : list event) :
  run_trace s (t1 ++ t2)
  = match run_trace s t1 with
    | Some s' => run_trace s' t2
    | None => None
    end.
Proof.
  revert s. induction t1 as [|ev t1 IH]; intros s; [done|].
  cbn. destruct (step s ev); [apply IH | done].
Qed.

Lemma run_trace_block (stmts : list string) :
  run_trace Pending (map Execute stmts ++ [Close]) = Some Idle.
Proof.
  destruct stmts as [|q stmts]; [done|]. cbn.
  induction stmts as [|q' stmts IH]; [done|]. exact IH.
Qed.

Lemma conn_loop_released {A} self env (body : list string * outcome A)
    (attempts : list nat) :
  forall resumed log,
    run_trace Idle log = Some Idle ->
    released (trace (get_connection_loop self env body resumed attempts log)) = true.
Proof.
  induction attempts as [|a attempts IH]; intros resumed log Hlog;
    cbn [get_connection_loop].
  - unfold released. cbn [trace]. by rewrite Hlog.
  - assert (run_trace Idle (log ++ [Connect (connection_string self)]) = Some Pending)
      as Hc by (by rewrite run_trace_app, Hlog).
    destruct (env a) as [e|].
    + destruct (retry_delay (config self) e a) as [d|].
      * apply IH. by rewrite run_trace_app, Hc.
      * unfold released. cbn [trace]. by rewrite Hc.
    + destruct resumed.
      * unfold released. cbn [trace]. by rewrite run_trace_app, Hc.
      * assert (run_trace Idle
                  ((log ++ [Connect (connection_string self)]) ++ map Execute body.1
                     ++ [Close]) = Some Idle) as Hb
          by (by rewrite run_trace_app, Hc, run_trace_block).
        destruct body.2 as [x|e].
        -- unfold released. cbn [trace]. by rewrite <- app_assoc, Hb.
        -- destruct (retry_delay (config self) e a) as [d|].
           ++ apply IH.
              replace (((log ++ [Connect (connection_string self)])
                          ++ map Execute body.1) ++ [Close; Sleep d])
                with (((log ++ [Connect (connection_string self)])
                         ++ map Execute body.1 ++ [Close]) ++ [Sleep d])
                by (by rewrite <- !app_assoc).
              by rewrite run_trace_app, Hb.
           ++ unfold released. cbn [trace]. by rewrite <- app_assoc, Hb.
Qed.

(** X7.  Whatever [sqlite3.connect] and the block do, the events of
    [with self.get_connection() as conn: ...] are in order: a statement is
    executed only after a connection attempt, and a connection on which a
    statement was executed is closed before the call sleeps, connects again
    or ends.  This holds on the paths that return, that retry and that
    raise. *)
Theorem get_connection_releases {A} self env (body : list string * outcome A) :
  released (trace (with_connection self env body)) = true.
Proof. unfold with_connection. by apply conn_loop_released. Qed.

(** *** Exceptions of the block *)

Lemma conn_loop_outcome {A} self env (body : list string * outcome A)
    (attempts : list nat) :
  forall resumed log,
    let res := get_connection_loop self env body resumed attempts log in
    (forall x, result res = Return x -> body.2 = Return x /\ resumed = false)
    /\ (executed (trace res) = executed log
        \/ (resumed = false /\ executed (trace res) = executed log ++ body.1)).
Proof.
  induction attempts as [|a attempts IH]; intros resumed log;
    cbn [get_connection_loop].
  - cbn. split; [discriminate | by left].
  - destruct (env a) as [e|].
    + destruct (retry_delay (config self) e a) as [d|].
      * destruct (IH resumed ((log ++ [Connect (connection_string self)]) ++ [Sleep d]))
          as [Hr Hx].
        split; [exact Hr|]. revert Hx. rewrite !executed_app. cbn.
        by rewrite !app_nil_r.
      * cbn. split; [discriminate|]. left. rewrite executed_app. cbn.
        by rewrite app_nil_r.
    + destruct resumed.
      * cbn. split; [discriminate|]. left. rewrite !executed_app. cbn.
        by rewrite !app_nil_r.
      * destruct body.2 as [x|e] eqn:Eb.
        -- cbn. split; [by intros y [= <-]|]. right. split; [done|].
           rewrite !executed_app, executed_map_Execute. cbn. by rewrite !app_nil_r.
        -- destruct (retry_delay (config self) e a) as [d|].
           ++ destruct (IH true (((log ++ [Connect (connection_string self)])
                                    ++ map Execute body.1) ++ [Close; Sleep d]))
                as [Hr Hx].
              split; [intros x Hxr; by destruct (Hr x Hxr)|].
              right. split; [done|].
              destruct Hx as [Hx|[? _]]; [|done]. rewrite Hx.
              rewrite !executed_app, executed_map_Execute. cbn.
              by rewrite !app_nil_r.
           ++ cbn. split; [discriminate|]. right. split; [done|].
              rewrite !executed_app, executed_map_Execute. cbn.
              by rewrite !app_nil_r.
Qed.

Lemma with_connection_block_error {A} self env (body : list string * outcome A) e :
  0 < max_retries (config self) -> env 0%nat = None ->
  body.2 = Raise e -> retry_delay (config self) e 0 = None ->
  result (with_connection self env body) = Raise e.
Proof.
  intros Hmr H0 Hb Hd. unfold with_connection.
  destruct (Z.to_nat (max_retries (config self))) as [|n] eqn:E; [lia|].
  cbn [seq get_connection_loop]. by rewrite H0, Hb, Hd.
Qed.


Lemma with_connection_executes_once {A} self env (body : list string * outcome A) :
  executed (trace (with_connection self env body)) = []
  \/ executed (trace (with_connection self env body)) = body.1.
Proof.
  unfold with_connection.
  destruct (conn_loop_outcome self env body
              (seq 0 (Z.to_nat (max_retries (config self)))) false []) as [_ Hx].
  destruct Hx as [Hx|[_ Hx]]; [by left | by right].
Qed.

(** X8.  In every environment, [with self.get_connection() as conn: ...]
    returns only what its block returns, so that a block that raises never
    makes the call return; and the statements of the block are executed once
    or not at all, never twice.  When the block raises an error that is not
    retried, that error is raised.  When it raises a busy or locked error
    with an attempt left and the next connection succeeds, the block is not
    run again: the call raises the RuntimeError of contextlib. *)
Theorem get_connection_block_errors {A} self env (body : list string * outcome A) :
  let res := with_connection self env body in
  (forall x, result res = Return x -> body.2 = Return x)
  /\ (executed (trace res) = [] \/ executed (trace res) = body.1)
  /\ (forall e,
        0 < max_retries (config self) -> env 0%nat = None ->
        body.2 = Raise e -> retry_delay (config self) e 0 = None ->
        result res = Raise e)
  /\ (forall e d,
        1 < max_retries (config self) -> env 0%nat = None -> env 1%nat = None ->
        body.2 = Raise e -> retry_delay (config self) e 0 = Some d ->
        result res = Raise (RuntimeError "generator didn't stop after throw()")
        /\ executed (trace res) = body.1
        /\ sleeps (trace res) = [d]).
Proof.
  intros res. subst res. unfold with_connection.
  destruct (conn_loop_outcome self env body
              (seq 0 (Z.to_nat (max_retries (config self)))) false []) as [Hr Hx].
  split; [intros x H; by destruct (Hr x H)|].
  split; [destruct Hx as [Hx|[_ Hx]]; [by left | by right]|].
  split.
  - intros e Hmr H0 Hb Hd. by apply with_connection_block_error.
  - intros e d Hmr H0 H1 Hb Hd.
    destruct (Z.to_nat (max_retries (config self))) as [|[|n]] eqn:E; [lia..|].
    cbn [seq get_connection_loop]. rewrite H0, Hb, Hd, H1. cbn [result trace].
    split; [done|].
    rewrite !executed_app, !rsleeps_app, executed_map_Execute, sleeps_map_Execute.
    cbn. by rewrite !app_nil_r.
Qed.

Lemma get_connection_block_errors_witness :
  (1 < max_retries (config reader0)
   /\ retry_delay (config reader0) (OperationalError "database is locked") 0
      = Some float_0_1)
  /\ result (with_connection reader0 env_ok
               (["SELECT * FROM sensor_readings"],
                Raise (A := list record) (OperationalError "database is locked")))
     = Raise (RuntimeError "generator didn't stop after throw()").
Proof.
  split; [split; [reflexivity | by vm_compute]|].
  apply (proj2 (proj2 (proj2 (get_connection_block_errors reader0 env_ok
           (["SELECT * FROM sensor_readings"],
            Raise (A := list record) (OperationalError "database is locked")))))
           (OperationalError "database is locked") float_0_1);
    reflexivity.
Defined.

(** *** LIMIT and OFFSET *)






(** *** More on stream_sensor_data *)







(** *** The two callers of the reader *)

(** X14.  [PipelineController.read_sensor_data(path, limit)] does what the
    function [read_sensor_data(path, "sensor_readings", limit)] of the reader
    module does: the ordering it asks for is the default one and its
    configuration is the default one.  Both raise FileNotFoundError, without
    a connection attempt, when the resolved path does not exist. *)
Theorem controller_read_is_convenience_read (fs : filesystem)
    (db_of : string -> sensor_db) env (path : string) (limit : Z) :
  controller_read_sensor_data fs db_of env path limit
  = read_sensor_data_convenience fs db_of env path "sensor_readings" (Some limit) None
  /\ (exists_ fs (resolve fs path) = false ->
      controller_read_sensor_data fs db_of env path limit
      = {| result := Raise (FileNotFoundError
                              ("Sensor database not found: " +:+ resolve fs path));
           trace := [] |}).
Proof.
  unfold controller_read_sensor_data, read_sensor_data_convenience, init.
  split.
  - destruct (exists_ fs (resolve fs path)); [|reflexivity]. cbn [negb].
    unfold read_sensor_data, build_query. reflexivity.
  - by intros ->.
Qed.

Lemma controller_read_is_convenience_read_witness :
  exists_ {| resolve := fun p => p; exists_ := fun _ => false |}
    (resolve {| resolve := fun p => p; exists_ := fun _ => false |} "/data/s.db") = false
  /\ trace (controller_read_sensor_data
              {| resolve := fun p => p; exists_ := fun _ => false |}
              (fun _ => db_five) env_ok "/data/s.db" 10) = [].
Proof.
  split; [reflexivity|].
  rewrite (proj2 (controller_read_is_convenience_read
                    {| resolve := fun p => p; exists_ := fun _ => false |}
                    (fun _ => db_five) env_ok "/data/s.db" 10) eq_refl).
  reflexivity.
Defined.

End ReaderMore.

Section MetadataMore.
Import Metadata.

#[local] Existing Instance str_le_trans.
#[local] Existing Instance str_le_antisym.
#[local] Existing Instance str_le_total.

Lemma keys_elem_of (c : gmap string value) (k : string) :
  k ∈ map fst (map_to_list c) <-> is_Some (c !! k).
Proof.
  rewrite list_elem_of_fmap. split.
  - intros ([k' v] & -> & Hin). apply elem_of_map_to_list in Hin. by exists v.
  - intros [v Hv]. exists (k, v). split; [done|]. by apply elem_of_map_to_list.
Qed.

(** X15.  [sorted(config.keys())]: the list holds every key of the
    configuration once and no other string, and is in increasing order. *)
Theorem sorted_keys_sorted (config : gmap string value) :
  StronglySorted str_le (sorted_keys config)
  /\ NoDup (sorted_keys config)
  /\ (forall k, k ∈ sorted_keys config <-> is_Some (config !! k))
  /\ length (sorted_keys config) = size config.
Proof.
  unfold sorted_keys.
  pose proof (merge_sort_Permutation str_le (map fst (map_to_list config))) as Hp.
  split; [apply StronglySorted_merge_sort; apply _|].
  split; [rewrite Hp; apply NoDup_fst_map_to_list|].
  split; [intros k; rewrite Hp; apply keys_elem_of|].
  by rewrite Hp, length_map, length_map_to_list.
Qed.

(** X16.  The text that [generate_transformation_hash] hashes: a JSON
    object with the members [config_keys], [pipeline_type] and [version], in
    this order whatever the order of the dict literal, the first being the
    sorted key names.  No value of the configuration occurs in it. *)
Theorem transformation_hash_input (json_string sha256_hexdigest : string -> string)
    (environ : gmap string string) (pipeline_type : string)
    (config : gmap string value) :
  generate_transformation_hash json_string sha256_hexdigest environ pipeline_type config
  = sha256_hexdigest
      ("{" +:+ join ", "
                 [ json_string "config_keys" +:+ ": "
                     +:+ ("[" +:+ join ", " (map json_string (sorted_keys config))
                              +:+ "]");
                   json_string "pipeline_type" +:+ ": " +:+ json_string pipeline_type;
                   json_string "version" +:+ ": "
                     +:+ json_string (get_pipeline_version environ) ]
           +:+ "}").
Proof.
  unfold generate_transformation_hash, json_dumps_sort_keys.
  apply (f_equal sha256_hexdigest), (f_equal (fun x => "{" +:+ x +:+ "}")),
    (f_equal (join ", ")).
  set (obj := <["pipeline_type" := _]> (<["version" := _]> (<["config_keys" := _]> ∅))).
  assert (merge_sort str_le (map fst (map_to_list obj))
          = ["config_keys"; "pipeline_type"; "version"]) as ->.
  { apply (Sorted_unique str_le).
    - apply Sorted_merge_sort; apply _.
    - repeat constructor.
    - rewrite merge_sort_Permutation.
      apply NoDup_Permutation; [apply NoDup_fst_map_to_list | |].
      + compute_done.
      + intros k. rewrite list_elem_of_fmap. split.
        * intros ([k' v] & -> & Hin). apply elem_of_map_to_list in Hin.
          subst obj. cbn [fst].
          apply lookup_insert_Some in Hin as [[<- _]|[_ Hin]]; [set_solver|].
          apply lookup_insert_Some in Hin as [[<- _]|[_ Hin]]; [set_solver|].
          apply lookup_insert_Some in Hin as [[<- _]|[_ Hin]]; [set_solver|].
          by rewrite lookup_empty in Hin.
        * intros Hk. assert (is_Some (obj !! k)) as [v Hv].
          { subst obj. repeat (apply elem_of_cons in Hk as [->|Hk]);
              [by simplify_map_eq.. | by apply elem_of_nil in Hk]. }
          exists (k, v). split; [done|]. by apply elem_of_map_to_list. }
  subst obj. cbn [map]. by simplify_map_eq.
Qed.

(** X17.  The audit stamp of [create_pipeline_metadata] has the six keys
    [pipeline_version], [pipeline_stage], [processing_timestamp], [git_sha],
    [node_id] and [transformation_hash]; the stage is the pipeline type, and
    the git SHA is "unknown" whenever running git raises.  For the same
    environment, clock, phase and node, two configurations with the same keys
    give the same stamp: no value of the configuration reaches it. *)
Theorem create_pipeline_metadata_stamp (json_string sha256_hexdigest : string -> string)
    (environ : gmap string string) (now_utc : string) (git : outcome string)
    (pipeline_type node_id : string) (c1 c2 : gmap string value) :
  let stamp := create_pipeline_metadata json_string sha256_hexdigest environ now_utc
                 git pipeline_type node_id in
  (dom c1 = dom c2 -> stamp c1 = stamp c2)
  /\ dom (stamp c1)
     = list_to_set ["pipeline_version"; "pipeline_stage"; "processing_timestamp";
                    "git_sha"; "node_id"; "transformation_hash"]
  /\ stamp c1 !! "pipeline_stage" = Some (VStr pipeline_type)
  /\ stamp c1 !! "pipeline_version"
     = Some (VStr (default "0.9.0" (environ !! "PIPELINE_VERSION")))
  /\ (forall e, git = Raise e -> stamp c1 !! "git_sha" = Some (VStr "unknown")).
Proof.
  intros stamp. subst stamp. unfold create_pipeline_metadata.
  split; [|split; [|split; [|split]]].
  - intros Hdom. unfold generate_transformation_hash.
    by rewrite (sorted_keys_dom c1 c2 Hdom).
  - rewrite !dom_insert_L, dom_empty_L. cbn [list_to_set]. set_solver.
  - by simplify_map_eq.
  - by simplify_map_eq.
  - intros e ->. by simplify_map_eq.
Qed.

Lemma create_pipeline_metadata_stamp_witness :
  dom config_one = dom config_two
  /\ create_pipeline_metadata (fun s => s) (fun s => s) ∅ "2024-01-15T10:30:00+00:00"
       (Raise (OtherException "FileNotFoundError" "git")) "validated" "node-1" config_one
     = create_pipeline_metadata (fun s => s) (fun s => s) ∅ "2024-01-15T10:30:00+00:00"
         (Raise (OtherException "FileNotFoundError" "git")) "validated" "node-1"
         config_two.
Proof.
  assert (dom config_one = dom config_two) as H.
  { unfold config_one, config_two. rewrite !dom_insert_L, dom_empty_L. set_solver. }
  split; [exact H|].
  apply (create_pipeline_metadata_stamp (fun s => s) (fun s => s) ∅
           "2024-01-15T10:30:00+00:00"
           (Raise (OtherException "FileNotFoundError" "git")) "validated" "node-1"
           config_one config_two), H.
Defined.

End MetadataMore.

Section RouterMore.
Import Router.

Implicit Types (py : builtins) (r : record) (data : list record).

(** *** No record is lost *)

Lemma split_loop_conserves py (pt : string) data :
  forall valid0 invalid0 valid invalid,
    split_loop py pt data valid0 invalid0 = Return (valid, invalid) ->
    exists v i,
      valid = valid0 ++ v /\ invalid = invalid0 ++ i
      /\ v ++ i ≡ₚ map (processed py pt) data
      /\ v `sublist_of` map (processed py pt) data
      /\ i `sublist_of` map (processed py pt) data
      /\ (pt <> "validated" -> i = []).
Proof.
  induction data as [|r data IH]; intros valid0 invalid0 valid invalid.
  - cbn. intros [= <- <-]. exists [], []. by rewrite !app_nil_r.
  - cbn [split_loop map]. unfold processed at 1 3 5.
    assert (forall x,
              split_loop py pt data (valid0 ++ [x]) invalid0 = Return (valid, invalid) ->
              exists v i,
                valid = valid0 ++ v /\ invalid = invalid0 ++ i
                /\ v ++ i ≡ₚ x :: map (processed py pt) data
                /\ v `sublist_of` x :: map (processed py pt) data
                /\ i `sublist_of` x :: map (processed py pt) data
                /\ (pt <> "validated" -> i = [])) as Hvalid.
    { intros x H. apply IH in H as (v & i & -> & -> & Hp & Hv & Hi & Hn).
      exists (x :: v), i. rewrite <- app_assoc. split; [done|]. split; [done|].
      split; [cbn; by rewrite Hp|].
      split; [by apply sublist_skip|]. split; [by apply sublist_cons | done]. }
    destruct (String.eqb_spec pt "raw") as [->|_]; [by apply Hvalid|].
    destruct (String.eqb_spec pt "schematized") as [->|_]; [by apply Hvalid|].
    destruct (String.eqb_spec pt "validated") as [->|Hnv]; cbn [orb].
    + destruct (_mock_validate_record py _) as [[|]|e]; cbn [bind];
        [by apply Hvalid | | discriminate].
      intros H. apply IH in H as (v & i & -> & -> & Hp & Hv & Hi & Hn).
      exists v, (_mock_transform_to_turbine_schema py "validated" r :: i).
      rewrite <- app_assoc. split; [done|]. split; [done|].
      split; [by rewrite <- Permutation_middle, Hp|].
      split; [by apply sublist_cons|]. split; [by apply sublist_skip | done].
    + destruct (String.eqb pt "aggregated"); [by apply Hvalid|].
      destruct (String.eqb pt "anomaly"); by apply Hvalid.
Qed.

(** X18.  [_validate_and_split_data] loses no record and makes none up: when
    it returns, the valid and the invalid list together hold, record for
    record, the processed input batch (transformed in the phases schematized
    and validated, untouched in the others); each list keeps the order of
    the input; and only the validated phase can put a record in the invalid
    list. *)
Theorem split_conserves_records py (pt : string) data
    (valid invalid : list record) :
  _validate_and_split_data py pt data = Return (valid, invalid) ->
  valid ++ invalid ≡ₚ map (processed py pt) data
  /\ (length valid + length invalid = length data)%nat
  /\ valid `sublist_of` map (processed py pt) data
  /\ invalid `sublist_of` map (processed py pt) data
  /\ (pt <> "validated" -> invalid = []).
Proof.
  unfold _validate_and_split_data. intros H.
  apply split_loop_conserves in H as (v & i & -> & -> & Hp & Hv & Hi & Hn).
  cbn [app]. split; [exact Hp|].
  split; [by rewrite <- length_app, Hp, length_map|]. by repeat split.
Qed.

Lemma split_conserves_records_witness :
  _validate_and_split_data py0 "validated" sample_data
  = Return (map (_mock_transform_to_turbine_schema py0 "validated")
              (List.filter (within_ranges py0) sample_data),
            map (_mock_transform_to_turbine_schema py0 "validated")
              (List.filter (fun r => negb (within_ranges py0 r)) sample_data))
  /\ (length (map (_mock_transform_to_turbine_schema py0 "validated")
                (List.filter (within_ranges py0) sample_data))
      + length (map (_mock_transform_to_turbine_schema py0 "validated")
                  (List.filter (fun r => negb (within_ranges py0 r)) sample_data))
      = length sample_data)%nat.
Proof.
  assert (_validate_and_split_data py0 "validated" sample_data
          = Return (map (_mock_transform_to_turbine_schema py0 "validated")
                      (List.filter (within_ranges py0) sample_data),
                    map (_mock_transform_to_turbine_schema py0 "validated")
                      (List.filter (fun r => negb (within_ranges py0 r)) sample_data)))
    as H by (by vm_compute).
  split; [exact H|].
  apply (split_conserves_records py0 "validated" sample_data _ _ H).
Defined.

(** *** The schematized phase and the transformation *)

Lemma split_loop_schematized py data :
  forall valid invalid,
    split_loop py "schematized" data valid invalid
    = Return (valid ++ map (_mock_transform_to_turbine_schema py "schematized") data,
              invalid).
Proof.
  induction data as [|r data IH]; intros valid invalid.
  - cbn. by rewrite app_nil_r.
  - cbn [split_loop String.eqb Ascii.eqb Bool.eqb map]. rewrite IH.
    by rewrite <- app_assoc.
Qed.

(** X19.  In the schematized phase every record is transformed and none is
    validated: the valid list is the transforms of the batch in order, the
    invalid list is empty, whatever the values of the records, and every
    record of the valid list carries the metadata with stage
    "schematized". *)
Theorem schematized_phase_transforms_all py data :
  _validate_and_split_data py "schematized" data
  = Return (map (_mock_transform_to_turbine_schema py "schematized") data, [])
  /\ Forall (fun t : record =>
               t !! "pipeline_metadata"
               = Some (VDict (<["stage" := VStr "schematized"]>
                              (<["processed_at" := VStr "2024-01-15T10:30:00Z"]> ∅))))
       (map (_mock_transform_to_turbine_schema py "schematized") data).
Proof.
  split; [apply (split_loop_schematized py data [] [])|].
  apply Forall_forall. intros t Ht. apply list_elem_of_fmap in Ht as (r & -> & _).
  unfold _mock_transform_to_turbine_schema. by simplify_map_eq.
Qed.

(** X20.  The transformation reads five fields of its input, [timestamp],
    [id], [temperature], [humidity] and [pressure], and nothing else: two
    records that agree on them have the same transform.  The transform
    always has the same nine keys; it copies the timestamp, temperature and
    humidity (None when missing); the pressure is 1013.25 when the key is
    missing and the stored value otherwise, also when that is None; the
    turbine id is "turbine_" followed by the id, "001" when there is none. *)
Theorem transform_shape py (pt : string) (r r' : record) :
  let t := _mock_transform_to_turbine_schema py pt r in
  (Forall (fun key => r !! key = r' !! key)
     ["timestamp"; "id"; "temperature"; "humidity"; "pressure"] ->
   _mock_transform_to_turbine_schema py pt r' = t)
  /\ dom t = list_to_set ["timestamp"; "turbine_id"; "site_id"; "temperature";
                          "humidity"; "pressure"; "wind_speed"; "power_output";
                          "pipeline_metadata"]
  /\ t !! "timestamp" = Some (default VNone (r !! "timestamp"))
  /\ t !! "temperature" = Some (default VNone (r !! "temperature"))
  /\ t !! "humidity" = Some (default VNone (r !! "humidity"))
  /\ t !! "pressure" = Some (default (VFloat float_1013_25) (r !! "pressure"))
  /\ t !! "turbine_id"
     = Some (VStr ("turbine_" +:+ str_of py (default (VStr "001") (r !! "id")))).
Proof.
  intros t. subst t. unfold _mock_transform_to_turbine_schema, get, get_or.
  split; [|split].
  - intros H. repeat (apply Forall_cons in H as [? H]).
    repeat match goal with E : r !! _ = r' !! _ |- _ => rewrite E; clear E end.
    reflexivity.
  - rewrite !dom_insert_L, dom_empty_L. cbn [list_to_set]. set_solver.
  - repeat split; by simplify_map_eq.
Qed.

Lemma transform_shape_witness :
  Forall (fun key => (<["location" := VStr "turbine_001"]>
                        (<["id" := VInt 1]> (∅ : record))) !! key
                     = (<["id" := VInt 1]> (∅ : record)) !! key)
    ["timestamp"; "id"; "temperature"; "humidity"; "pressure"]
  /\ _mock_transform_to_turbine_schema py0 "validated" (<["id" := VInt 1]> ∅)
     = _mock_transform_to_turbine_schema py0 "validated"
         (<["location" := VStr "turbine_001"]> (<["id" := VInt 1]> ∅)).
Proof.
  assert (Forall (fun key => (<["location" := VStr "turbine_001"]>
                                (<["id" := VInt 1]> (∅ : record))) !! key
                             = (<["id" := VInt 1]> (∅ : record)) !! key)
            ["timestamp"; "id"; "temperature"; "humidity"; "pressure"]) as H
    by (repeat constructor).
  split; [exact H|].
  apply (transform_shape py0 "validated"
           (<["location" := VStr "turbine_001"]> (<["id" := VInt 1]> ∅))
           (<["id" := VInt 1]> ∅)), H.
Defined.

(** *** The default validator *)

(** X21.  The verdict of [_mock_validate_record] depends on the entries
    [temperature] and [humidity] of the record and on nothing else.  The
    only exception it can raise is the OverflowError of [float] on an int
    too large for a float, stored under one of these two keys; a str that
    does not parse, a list, a dict and None never make it raise. *)
Theorem validate_record_frame py (r r' : record) :
  (r !! "temperature" = r' !! "temperature" ->
   r !! "humidity" = r' !! "humidity" ->
   _mock_validate_record py r' = _mock_validate_record py r)
  /\ (forall e, _mock_validate_record py r = Raise e ->
        exists key z msg,
          (key = "temperature" \/ key = "humidity")
          /\ r !! key = Some (VInt z)
          /\ e = OverflowError msg
          /\ exists s, float_of_Z z = S754_infinity s)
  /\ ((forall z, r !! "temperature" <> Some (VInt z)) ->
      (forall z, r !! "humidity" <> Some (VInt z)) ->
      exists verdict, _mock_validate_record py r = Return verdict).
Proof.
  assert (forall e, _mock_validate_record py r = Raise e ->
            exists key z msg,
              (key = "temperature" \/ key = "humidity")
              /\ r !! key = Some (VInt z)
              /\ e = OverflowError msg
              /\ exists s, float_of_Z z = S754_infinity s) as Hraise.
  { intros e. unfold _mock_validate_record, get_or.
    destruct (coerce py (default (VInt 0) (r !! "temperature"))) as [t|e1] eqn:Et.
    - destruct (coerce py (default (VInt 0) (r !! "humidity"))) as [h|e2] eqn:Eh.
      + cbn [bind]. by repeat case_match.
      + cbn [bind]. intros [= <-].
        apply coerce_raises in Eh as (z & msg & Hv & -> & Hinf).
        destruct (r !! "humidity") as [v|] eqn:Ek; cbn in Hv.
        * subst v. exists "humidity", z, msg. auto.
        * injection Hv as <-. by destruct Hinf.
    - cbn [bind]. intros [= <-].
      apply coerce_raises in Et as (z & msg & Hv & -> & Hinf).
      destruct (r !! "temperature") as [v|] eqn:Ek; cbn in Hv.
      + subst v. exists "temperature", z, msg. auto.
      + injection Hv as <-. by destruct Hinf. }
  split; [|split; [exact Hraise|]].
  - intros Ht Hh. unfold _mock_validate_record, get_or. by rewrite Ht, Hh.
  - intros Ht Hh. destruct (_mock_validate_record py r) as [verdict|e] eqn:E;
      [by eexists|].
    destruct (Hraise e eq_refl) as (key & z & msg & [-> | ->] & Hk & _);
      [by destruct (Ht z) | by destruct (Hh z)].
Qed.

Lemma validate_record_frame_witness :
  (<["temperature" := VFloat (float_of_Z 25)]> (∅ : record)) !! "temperature"
  = (<["location" := VStr "x"]> (<["temperature" := VFloat (float_of_Z 25)]>
                                   (∅ : record))) !! "temperature"
  /\ _mock_validate_record py0
       (<["location" := VStr "x"]> (<["temperature" := VFloat (float_of_Z 25)]> ∅))
     = _mock_validate_record py0 (<["temperature" := VFloat (float_of_Z 25)]> ∅).
Proof.
  split; [reflexivity|].
  apply (validate_record_frame py0 (<["temperature" := VFloat (float_of_Z 25)]> ∅)
           (<["location" := VStr "x"]> (<["temperature" := VFloat (float_of_Z 25)]> ∅)));
    reflexivity.
Defined.

(** X22.  Values that are not finite.  A NaN is below no bound and above
    none, so it never fails a range check: with a NaN temperature the
    verdict is that of the humidity alone, and conversely.  An infinite
    temperature or humidity always fails. *)
Theorem passes_non_finite (x : spec_float) (s : bool) :
  passes S754_nan x = negb (lt_int x 0 || gt_int x 100)
  /\ passes x S754_nan = negb (lt_int x (-20) || gt_int x 60)
  /\ passes S754_nan S754_nan = true
  /\ passes (S754_infinity s) x = false
  /\ passes x (S754_infinity s) = false.
Proof.
  unfold passes, lt_int, gt_int.
  split; [reflexivity|]. split; [by rewrite andb_true_r|]. split; [reflexivity|].
  split.
  - apply andb_false_intro1. by destruct s; vm_compute.
  - apply andb_false_intro2. by destruct s; vm_compute.
Qed.

(** *** Destinations *)

(** X23.  Every pipeline type the controller can store has a destination in
    the bucket map of the uploader, and the map has no other key; the values
    of the pipeline types are pairwise different.  The validated phase is the
    only one whose destination is SPLIT, and each alias shares the
    destination of its phase. *)
Theorem bucket_map_covers_pipeline_types :
  (forall p : Controller.PipelineType,
     is_Some (pipeline_bucket_map !! Controller.PipelineType_value p))
  /\ (forall k, is_Some (pipeline_bucket_map !! k) ->
        exists p, k = Controller.PipelineType_value p)
  /\ (forall p q, Controller.PipelineType_value p = Controller.PipelineType_value q ->
        p = q)
  /\ (forall k, pipeline_bucket_map !! k = Some "SPLIT" <-> k = "validated")
  /\ pipeline_bucket_map !! "ingestion" = pipeline_bucket_map !! "raw"
  /\ pipeline_bucket_map !! "anomalies" = pipeline_bucket_map !! "anomaly"
  /\ pipeline_bucket_map !! "filtered" = pipeline_bucket_map !! "enriched".
Proof.
  assert (forall k v, pipeline_bucket_map !! k = Some v ->
            (k, v) ∈ [("raw", "ingestion"); ("ingestion", "ingestion");
                      ("schematized", "schematized"); ("validated", "SPLIT");
                      ("anomaly", "anomalies"); ("anomalies", "anomalies");
                      ("aggregated", "aggregated"); ("enriched", "enriched");
                      ("filtered", "enriched")]) as Hall.
  { intros k v. unfold pipeline_bucket_map.
    repeat (rewrite lookup_insert_Some; intros [[<- <-]|[_ H]];
            [set_solver | revert H]).
    by rewrite lookup_empty. }
  split; [by intros []|]. split; [|split; [|split; [|by repeat split]]].
  - intros k [v Hv]. apply Hall in Hv.
    repeat (apply elem_of_cons in Hv as [[= -> ->]|Hv];
            [first [by exists Controller.RAW | by exists Controller.INGESTION
                   | by exists Controller.SCHEMATIZED | by exists Controller.VALIDATED
                   | by exists Controller.ANOMALY | by exists Controller.ANOMALIES
                   | by exists Controller.AGGREGATED | by exists Controller.ENRICHED
                   | by exists Controller.FILTERED]|]).
    by apply elem_of_nil in Hv.
  - by intros [] [].
  - intros k. split; [|by intros ->].
    intros Hv. apply Hall in Hv.
    rewrite !elem_of_cons, elem_of_nil in Hv.
    repeat (destruct Hv as [Hv|Hv]; [by injection Hv|]). done.
Qed.

End RouterMore.

Section IntrospectionMore.
Import Reader Introspection.

Implicit Types (self : SensorDatabaseReader) (cat : catalog).
Implicit Types (env : nat -> option exn).

#[local] Existing Instance str_le_trans.
#[local] Existing Instance str_le_total.

Lemma with_connection_connected_executed {A} self env
    (body : list string * outcome A) :
  0 < max_retries (config self) -> connects_at_once env ->
  executed (trace (with_connection self env body)) = body.1.
Proof.
  intros Hmr Henv. destruct body as [stmts o].
  destruct (proj1 (with_connection_first self env stmts o Hmr Henv)) as [t Ht].
  destruct (with_connection_executes_once self env (stmts, o)) as [Hx|Hx];
    [|exact Hx].
  rewrite Hx. symmetry. rewrite Ht in Hx. cbn in Hx.
  rewrite executed_app, executed_map_Execute in Hx.
  by apply app_eq_nil in Hx as [Hs _].
Qed.

(** X24.  [get_table_info] and [list_tables] on a reader that connects.  For
    a name that is not a table of the database, [get_table_info] raises its
    ValueError having executed the lookup in [sqlite_master] and nothing
    else.  When it returns, the name is a table, and the dict holds that
    name, one column entry per row of PRAGMA table_info, the count of
    SELECT COUNT and the row of SELECT ... LIMIT 1.  [list_tables] returns the
    table names in increasing order, each once for each occurrence in
    [sqlite_master], and a name passes the lookup of [get_table_info] exactly
    when [list_tables] lists it. *)
Theorem table_introspection self cat env (table_name_ : string) :
  0 < max_retries (config self) -> connects_at_once env ->
  let res := get_table_info self cat env table_name_ in
  (table_name_ ∉ master_tables cat ->
     result res = Raise (not_found table_name_)
     /\ executed (trace res) = [q_exists])
  /\ (forall info, result res = Return info ->
        table_name_ ∈ master_tables cat
        /\ table_name info = table_name_
        /\ (exists rows, pragma_table_info cat table_name_ = Return rows
                         /\ columns info = map column_of_row rows
                         /\ length (columns info) = length rows)
        /\ count_rows cat table_name_ = Return (row_count info)
        /\ first_row cat table_name_ = Return (sample_row info))
  /\ (exists names,
        result (list_tables self cat env) = Return names
        /\ Sorted Metadata.str_le names
        /\ names ≡ₚ master_tables cat
        /\ (table_name_ ∈ names <-> executed (trace res) <> [q_exists])).
Proof.
  intros Hmr Henv res. subst res. unfold get_table_info.
  pose proof (with_connection_connected_executed self env
                (table_info_block cat table_name_) Hmr Henv) as Hx.
  split; [|split].
  - intros Hnot. split; [|rewrite Hx; unfold table_info_block;
                          by rewrite bool_decide_eq_false_2].
    apply with_connection_block_error; [done | done | | reflexivity].
    unfold table_info_block. by rewrite bool_decide_eq_false_2.
  - intros info Hinfo. clear Hx.
    destruct (table_info_block cat table_name_) as [stmts o] eqn:Eb.
    apply (proj2 (with_connection_first self env stmts o Hmr Henv)) in Hinfo.
    subst o. revert Eb. unfold table_info_block.
    destruct (bool_decide_reflect (table_name_ ∈ master_tables cat)) as [Hin|Hin];
      [|discriminate].
    destruct (pragma_table_info cat table_name_) as [rows|e]; [|discriminate].
    destruct (count_rows cat table_name_) as [n|e]; [|discriminate].
    destruct (first_row cat table_name_) as [sample|e]; [|discriminate].
    intros [= _ <-]. cbn. split; [done|]. split; [done|].
    split; [exists rows; by rewrite length_map|]. done.
  - exists (@merge_sort string Metadata.str_le Metadata.str_le_dec (master_tables cat)).
    split; [unfold list_tables; by rewrite with_connection_return|].
    split; [apply Sorted_merge_sort; apply _|].
    split; [apply merge_sort_Permutation|].
    rewrite merge_sort_Permutation, Hx. unfold table_info_block.
    destruct (bool_decide_reflect (table_name_ ∈ master_tables cat)) as [Hin|Hin].
    + split; [|done]. intros _.
      destruct (pragma_table_info cat table_name_) as [rows|e]; [|discriminate].
      destruct (count_rows cat table_name_) as [n|e]; [|discriminate].
      destruct (first_row cat table_name_) as [sample|e]; discriminate.
    + split; [done|]. intros H. by destruct H.
Qed.

Lemma table_introspection_witness :
  (0 < max_retries (config reader0) /\ connects_at_once env_ok
   /\ "nonexistent_table" ∉ master_tables catalog0)
  /\ result (get_table_info reader0 catalog0 env_ok "nonexistent_table")
     = Raise (not_found "nonexistent_table")
  /\ exists info,
       result (get_table_info reader0 catalog0 env_ok "sensor_readings") = Return info
       /\ table_name info = "sensor_readings"
       /\ row_count info = 5
       /\ map name (columns info) = ["id"; "timestamp"].
Proof.
  assert ("nonexistent_table" ∉ master_tables catalog0) as H by compute_done.
  split; [split; [reflexivity | split; [reflexivity | exact H]]|].
  split.
  { apply (table_introspection reader0 catalog0 env_ok "nonexistent_table"
             eq_refl eq_refl), H. }
  destruct (result (get_table_info reader0 catalog0 env_ok "sensor_readings"))
    as [info|e] eqn:E; [|by vm_compute in E].
  exists info. split; [reflexivity|].
  destruct (proj1 (proj2 (table_introspection reader0 catalog0 env_ok
                            "sensor_readings" eq_refl eq_refl)) info E)
    as (_ & Hn & (rows & Hr & Hc & _) & Hcount & _).
  split; [exact Hn|]. split; [by injection Hcount|].
  rewrite Hc. injection Hr as <-. reflexivity.
Defined.

(** *** verify_connection *)

Lemma conn_loop_returns {A} self env (body : list string * outcome A) (m : nat) :
  forall a log x,
    result (get_connection_loop self env body false (seq a m) log) = Return x ->
    exists k, (a <= k < a + m)%nat
              /\ (forall i, (a <= i < k)%nat -> put_off self env i)
              /\ env k = None /\ body.2 = Return x.
Proof.
  induction m as [|m IH]; intros a log x; cbn [seq get_connection_loop];
    [discriminate|].
  destruct (env a) as [e|] eqn:Ea.
  - destruct (retry_delay (config self) e a) as [d|] eqn:Ed; [|discriminate].
    intros H. apply IH in H as (k & Hk & Hoff & Hnone & Hb).
    exists k. split; [lia|]. split; [|done].
    intros i Hi. destruct (decide (i = a)) as [->|Hne]; [by exists e, d|].
    apply Hoff. lia.
  - destruct body.2 as [y|e] eqn:Eb.
    + cbn. intros [= <-]. exists a. split; [lia|]. split; [intros i Hi; lia | done].
    + destruct (retry_delay (config self) e a) as [d|]; [|discriminate].
      intros H.
      destruct (conn_loop_outcome self env body (seq (S a) m) true
                  (((log ++ [Connect (connection_string self)]) ++ map Execute body.1)
                     ++ [Close; Sleep d])) as [Hr _].
      by destruct (Hr x H).
Qed.

(** X25.  [verify_connection] returns True exactly when SELECT 1 gives 1 on
    a connection made at some attempt after attempts that were all put off
    by a busy or locked error; in every other case (no attempt allowed, an
    error that is not retried, retries used up, an error of the statement)
    it returns False. *)
Theorem verify_connection_true self env (answer : outcome Z) :
  verify_connection self env answer = true
  <-> answer = Return 1
      /\ exists k, (k < Z.to_nat (max_retries (config self)))%nat
                   /\ (forall i, (i < k)%nat -> put_off self env i)
                   /\ env k = None.
Proof.
  unfold verify_connection, with_connection. split.
  - destruct (result _) as [v|e] eqn:E; [|discriminate].
    intros Hv. apply Z.eqb_eq in Hv. subst v.
    apply conn_loop_returns in E as (k & Hk & Hoff & Hnone & Hb).
    cbn in Hb. split; [exact Hb|]. exists k. split; [lia|].
    split; [intros i Hi; apply Hoff; lia | exact Hnone].
  - intros [-> (k & Hk & Hoff & Hnone)].
    destruct (conn_loop_prefix self env (["SELECT 1"], Return 1) false k 0
                (Z.to_nat (max_retries (config self))) [])
      as (log' & -> & _); [lia | intros i Hi; apply Hoff; lia |].
    destruct (Z.to_nat (max_retries (config self)) - k)%nat as [|m] eqn:Hm; [lia|].
    cbn [seq get_connection_loop Nat.add]. by rewrite Hnone.
Qed.

End IntrospectionMore.
